(** * SkillLedger: the credibility scoring engine

    A shallow embedding of [backend/utils/skillScoring.js] together with the
    parts of the Mongoose models it relies on
    ([models/User.js], [models/Submission.js], [models/Endorsement.js],
    [models/Challenge.js]).

    Modelling conventions.
    - A JavaScript [Number] is an exact rational ([Q]); [Math.round] yields an
      integer ([Z]).  Dates are milliseconds since the epoch ([Z]) and
      [Date.now()] is an explicit argument [now].  The program computes on
      binary64 numbers: it agrees with the exact arithmetic while no
      intermediate number overflows, and up to the rounding of each
      operation.  [Module Binary64] has the averages and the endorsement
      score on binary64 numbers; the statements that depend on the
      difference bound the years of experience ([maxYears]) or ask for
      products that binary64 numbers add up exactly.
    - A MongoDB [ObjectId] is its numeric value ([N]), a number of 24
      hexadecimal digits.  Ids are compared as numbers, except where the
      source compares [toString()] with a string of the request.
    - The document store is a record of collections.  [Model.findById] is a
      map lookup, [Model.find] a filter over the collection in insertion
      order, and [populate] a lookup that leaves [null] behind when the
      referenced document is absent.
    - Dereferencing [null] throws; a computation that may throw returns a
      [completion], and [try]/[catch] is a match on it.
    - Division is the total division of [Q] ([x / 0 == 0]).  Every divisor of
      the source is either guarded or shown positive for inputs in range. *)

From Stdlib Require Import ZArith QArith Qround Qminmax Lia Lqa Ascii String List.
From Stdlib Require Import PrimFloat.
From stdpp Require Import gmap.

Local Open Scope Q_scope.

(** ** JavaScript primitives *)

Module JS.

(** Outcome of evaluating an expression: a value, or a thrown error. *)
Inductive completion (A : Type) : Type :=
| Normal (value : A)
| Thrown (message : string).
Arguments Normal {A} value.
Arguments Thrown {A} message.

#[export] Instance completion_ret : MRet completion := fun A a => Normal a.
#[export] Instance completion_bind : MBind completion := fun A B k c =>
  match c with
  | Normal a => k a
  | Thrown m => Thrown m
  end.

(** [Math.round]: the nearest integer, halves towards [+Infinity]. *)
Definition Math_round (x : Q) : Z := Qfloor (x + (1 # 2)).

Definition Math_min (x y : Q) : Q := Qmin x y.
Definition Math_max (x y : Q) : Q := Qmax x y.

(** [x < y] on numbers. *)
Definition lt (x y : Q) : bool := negb (Qle_bool y x).
(** [x >= y] on numbers. *)
Definition ge (x y : Q) : bool := Qle_bool y x.

(** [x || d] for a number [x]: zero is falsy. *)
Definition or_default (x d : Q) : Q := if Qeq_bool x 0 then d else x.

(** Truthiness of a reference that may be [null]. *)
Definition truthy {A} (r : option A) : bool :=
  match r with Some _ => true | None => false end.

End JS.

(** ** Documents *)

Definition ObjectId := N.
Definition Date := Z.

(** [1000 * 60 * 60 * 24] *)
Definition msPerDay : Q := inject_Z (1000 * 60 * 60 * 24).

Definition daysBetween (now then_ : Date) : Q := inject_Z (now - then_) / msPerDay.

Inductive Difficulty := easy | medium | hard | expert.
Inductive Level := beginner | intermediate | advanced | level_expert.

Record Challenge := mkChallenge {
  ch_skill : ObjectId;
  ch_difficulty : Difficulty;
  ch_passingScore : Q
}.

Record Submission := mkSubmission {
  sub_user : ObjectId;
  sub_challenge : option ObjectId;
  sub_score : Q;
  sub_isPassed : bool;
  sub_isVerified : bool;
  sub_submittedAt : Date
}.

Record Endorsement := mkEndorsement {
  en_endorser : ObjectId;
  en_recipient : ObjectId;
  en_skill : ObjectId;
  en_level : Level;
  en_weight : Q;
  en_isValid : bool
}.

(** An element of [user.skills]. *)
Record UserSkill := mkUserSkill {
  us_skill : ObjectId;
  us_proficiencyLevel : Q;
  us_yearsOfExperience : Q;
  us_isVerified : bool;
  us_credibilityScore : Q;
  us_lastUpdated : Date
}.

(** The paths of a user document that the scoring reads and writes.  The
    counters [totalChallengesAttempted] and [totalChallengesPassed] are kept
    apart, in [challengesRoute.Stats]. *)
Record User := mkUser {
  u_skills : list UserSkill;
  u_credibilityScore : Q
}.

(** The document store. *)
Record DB := mkDB {
  users : gmap N User;
  challenges : gmap N Challenge;
  submissions : list Submission;
  endorsements : list Endorsement
}.

(** ** models/Submission.js *)

Module SubmissionModel.

(** [submissionSchema.pre('save')].  [scoreModified] is
    [this.isModified('score')]; [this.challenge] is truthy when set. *)
Definition preSave (scoreModified : bool) (this : Submission) : Submission :=
  if scoreModified && JS.truthy (sub_challenge this)
  then mkSubmission (sub_user this) (sub_challenge this) (sub_score this)
         (JS.ge (sub_score this) 70)
         (sub_isVerified this) (sub_submittedAt this)
  else this.

(** [Submission.find({ user, isVerified: true, isPassed: true })] *)
Definition findVerifiedPassed (db : DB) (userId : ObjectId) : list Submission :=
  List.filter
    (fun s => N.eqb (sub_user s) userId && sub_isVerified s && sub_isPassed s)
    (submissions db).

(** [Submission.find({ user, challenge })] *)
Definition findByUserAndChallenge (db : DB) (userId challengeId : ObjectId)
    : list Submission :=
  List.filter
    (fun s => N.eqb (sub_user s) userId
              && match sub_challenge s with
                 | Some c => N.eqb c challengeId
                 | None => false
                 end)
    (submissions db).

(** [.sort({ score: -1 }).limit(1)]: a document of the largest score.  The
    source does not fix which one is returned among equal scores; the first
    of them in the collection is taken. *)
Fixpoint largestScore (l : list Submission) (best : option Submission)
    : option Submission :=
  match l with
  | [] => best
  | s :: rest =>
      match best with
      | None => largestScore rest (Some s)
      | Some b =>
          if JS.lt (sub_score b) (sub_score s) then largestScore rest (Some s)
          else largestScore rest (Some b)
      end
  end.

(** [submissionSchema.statics.getBestSubmission] *)
Definition getBestSubmission (db : DB) (userId challengeId : ObjectId)
    : option Submission :=
  largestScore (findByUserAndChallenge db userId challengeId) None.

(** [.populate('challenge')] on one submission. *)
Definition populateChallenge (db : DB) (s : Submission) : option Challenge :=
  match sub_challenge s with
  | Some c => challenges db !! c
  | None => None
  end.

End SubmissionModel.

(** ** models/Endorsement.js *)

Module EndorsementModel.

(** [Endorsement.find({ recipient, skill, isValid: true })] *)
Definition findValid (db : DB) (userId skillId : ObjectId) : list Endorsement :=
  List.filter
    (fun e => N.eqb (en_recipient e) userId && N.eqb (en_skill e) skillId
              && en_isValid e)
    (endorsements db).

(** [.populate('endorser')] on one endorsement. *)
Definition populateEndorser (db : DB) (e : Endorsement) : option User :=
  users db !! en_endorser e.

(** The store with one more endorsement document in the collection. *)
Definition insert (e : Endorsement) (db : DB) : DB :=
  mkDB (users db) (challenges db) (submissions db) (endorsements db ++ [e]).

(** [levelScores] in [statics.calculateEndorsementScore]. *)
Definition levelScores (l : Level) : Q :=
  match l with
  | beginner => 1
  | intermediate => 2
  | advanced => 3
  | level_expert => 4
  end.

(** The loop of [statics.calculateEndorsementScore]; the state is
    [(totalWeight, weightedSum)]. *)
Fixpoint levelLoop (es : list Endorsement) (acc : Q * Q) : Q * Q :=
  match es with
  | [] => acc
  | endorsement :: rest =>
      let '(totalWeight, weightedSum) := acc in
      let levelScore := JS.or_default (levelScores (en_level endorsement)) 1 in
      levelLoop rest
        (totalWeight + en_weight endorsement,
         weightedSum + levelScore * en_weight endorsement)
  end.

(** [endorsementSchema.statics.calculateEndorsementScore] *)
Definition calculateEndorsementScore (db : DB) (userId skillId : ObjectId) : Z :=
  let endorsements := findValid db userId skillId in
  if Nat.eqb (length endorsements) 0 then 0%Z
  else
    let '(totalWeight, weightedSum) := levelLoop endorsements (0, 0) in
    let maxPossibleScore := 4 * inject_Z (Z.of_nat (length endorsements)) in
    JS.Math_round ((weightedSum / maxPossibleScore) * 100).

(** [endorsementSchema.pre('save')].  [modified] is
    [this.isModified('endorser') || this.isModified('weight')].  When it
    holds the hook evaluates [this.constructor('User')]: [this.constructor]
    is the Endorsement model, and the model applied to a string raises an
    error.  The lookup of the endorser and the assignment of [this.weight]
    that follow are never reached, and the save fails.  The text of the error
    depends on the version of the library; the string below names the
    expression that fails. *)
Definition preSave (modified : bool) (this : Endorsement)
    : JS.completion Endorsement :=
  if modified
  then JS.Thrown "this.constructor('User')"
  else JS.Normal this.

End EndorsementModel.

(** ** models/User.js *)

Module UserModel.

(** [user.skills.find(s => s.skill.toString() === skillId.toString())] *)
Definition findSkill (user : User) (skillId : ObjectId) : option UserSkill :=
  List.find (fun s => N.eqb (us_skill s) skillId) (u_skills user).

(** [weight] in the loop of [updateCredibilityScore]. *)
Definition skillWeight (userSkill : UserSkill) : Q :=
  us_proficiencyLevel userSkill * us_yearsOfExperience userSkill + 1.

(** The loop of [updateCredibilityScore]: state is
    [(totalWeight, weightedSum)]. *)
Fixpoint weighSkills (skills : list UserSkill) (acc : Q * Q) : Q * Q :=
  match skills with
  | [] => acc
  | userSkill :: rest =>
      let '(totalWeight, weightedSum) := acc in
      let weight := skillWeight userSkill in
      weighSkills rest
        (totalWeight + weight, weightedSum + us_credibilityScore userSkill * weight)
  end.

(** [userSchema.methods.updateCredibilityScore], on the document in memory. *)
Definition updateCredibilityScore (this : User) : User :=
  match u_skills this with
  | [] => mkUser (u_skills this) 0
  | _ =>
      let '(totalWeight, weightedSum) := weighSkills (u_skills this) (0, 0) in
      mkUser (u_skills this) (inject_Z (JS.Math_round (weightedSum / totalWeight)))
  end.

(** [user.save()] *)
Definition save (userId : ObjectId) (user : User) (db : DB) : DB :=
  mkDB (<[userId := user]> (users db)) (challenges db) (submissions db)
    (endorsements db).

End UserModel.

(** ** utils/skillScoring.js *)

Module skillScoring.
Import JS.

(** [SCORING_WEIGHTS] *)
Definition challenge_passed : Q := 40.
Definition challenge_score : Q := 30.
Definition challenge_recency : Q := 20.
Definition challenge_difficulty : Q := 10.
Definition endorsement_level : Q := 50.
Definition endorsement_weight : Q := 30.
Definition endorsement_count : Q := 20.
Definition proficiency_base : Q := 25.
Definition proficiency_level : Q := 50.
Definition proficiency_experience : Q := 25.

Definition LEVEL_VALUES (l : Level) : Q :=
  match l with
  | beginner => 1
  | intermediate => 2
  | advanced => 3
  | level_expert => 4
  end.

Definition DIFFICULTY_MULTIPLIERS (d : Difficulty) : Q :=
  match d with
  | easy => 1
  | medium => 3 # 2
  | hard => 2
  | expert => 3
  end.

(** The value of [score] at the end of one iteration of the loop of
    [calculateChallengeScore]. *)
Definition submissionScore (now : Date) (submission : Submission)
    (difficultyMultiplier : Q) : Q :=
  let score := challenge_passed in
  let score := score + (sub_score submission / 100) * challenge_score in
  let score := score * difficultyMultiplier in
  let daysSinceSubmission := daysBetween now (sub_submittedAt submission) in
  let recencyFactor := Math_max 0 (1 - daysSinceSubmission / 365) in
  score + recencyFactor * challenge_recency.

(** The loop of [calculateChallengeScore]; the state is
    [(totalScore, maxPossibleScore)]. *)
Fixpoint challengeLoop (now : Date) (db : DB) (skillId : ObjectId)
    (subs : list Submission) (acc : Q * Q) : completion (Q * Q) :=
  match subs with
  | [] => Normal acc
  | submission :: rest =>
      match SubmissionModel.populateChallenge db submission with
      | None => Thrown "Cannot read properties of null (reading 'skill')"
      | Some challenge =>
          if negb (N.eqb (ch_skill challenge) skillId)
          then challengeLoop now db skillId rest acc
          else
            let '(totalScore, maxPossibleScore) := acc in
            let difficultyMultiplier :=
              or_default (DIFFICULTY_MULTIPLIERS (ch_difficulty challenge)) 1 in
            let score := submissionScore now submission difficultyMultiplier in
            challengeLoop now db skillId rest
              (totalScore + score, maxPossibleScore + 100 * difficultyMultiplier)
      end
  end.

Definition calculateChallengeScore (now : Date) (db : DB)
    (userId skillId : ObjectId) : completion Q :=
  let submissions := SubmissionModel.findVerifiedPassed db userId in
  if Nat.eqb (length submissions) 0 then Normal 0
  else
    '(totalScore, maxPossibleScore) ← challengeLoop now db skillId submissions (0, 0);
    Normal (if lt 0 maxPossibleScore
            then Math_min ((totalScore / maxPossibleScore) * 100) 100
            else 0).

(** The loop of [calculateEndorsementScore]; the state is
    [(totalLevelScore, totalWeightScore)]. *)
Fixpoint endorsementLoop (db : DB) (es : list Endorsement) (acc : Q * Q)
    : completion (Q * Q) :=
  match es with
  | [] => Normal acc
  | endorsement :: rest =>
      let '(totalLevelScore, totalWeightScore) := acc in
      let levelValue := or_default (LEVEL_VALUES (en_level endorsement)) 1 in
      match EndorsementModel.populateEndorser db endorsement with
      | None =>
          Thrown "Cannot read properties of null (reading 'credibilityScore')"
      | Some endorser =>
          let endorserCredibility := or_default (u_credibilityScore endorser) 0 in
          endorsementLoop db rest
            (totalLevelScore + levelValue,
             totalWeightScore + endorserCredibility * en_weight endorsement)
      end
  end.

Definition calculateEndorsementScore (db : DB) (userId skillId : ObjectId)
    : completion Q :=
  let endorsements := EndorsementModel.findValid db userId skillId in
  if Nat.eqb (length endorsements) 0 then Normal 0
  else
    '(totalLevelScore, totalWeightScore) ← endorsementLoop db endorsements (0, 0);
    let count := inject_Z (Z.of_nat (length endorsements)) in
    let maxLevelScore := count * 4 in
    let maxWeightScore := count * 100 in
    let normalizedLevel := (totalLevelScore / maxLevelScore) * endorsement_level in
    let normalizedWeight :=
      (totalWeightScore / maxWeightScore) * endorsement_weight in
    let countBonus := Math_min (count * 2) endorsement_count in
    Normal (Math_min (normalizedLevel + normalizedWeight + countBonus) 100).

Definition calculateProficiencyScore (db : DB) (userId skillId : ObjectId) : Q :=
  match users db !! userId with
  | None => 0
  | Some user =>
      match UserModel.findSkill user skillId with
      | None => 0
      | Some userSkill =>
          let score := proficiency_base in
          let score :=
            score + (us_proficiencyLevel userSkill / 10) * proficiency_level in
          let experienceBonus :=
            Math_min (us_yearsOfExperience userSkill) 10 / 10
            * proficiency_experience in
          let score := score + experienceBonus in
          Math_min score 100
      end
  end.

(** The part of [calculateTimeDecay] after [daysSinceUpdate] is known. *)
Definition decayAfter (daysSinceUpdate : Q) : Q :=
  if lt daysSinceUpdate 90 then 1
  else
    let decay := 1 - ((daysSinceUpdate - 90) / (365 * 2)) in
    Math_max (1 # 2) (Math_min decay 1).

Definition calculateTimeDecay (now : Date) (db : DB) (userId skillId : ObjectId)
    : Q :=
  match users db !! userId with
  | None => 1
  | Some user =>
      match UserModel.findSkill user skillId with
      | None => 1
      | Some userSkill => decayAfter (daysBetween now (us_lastUpdated userSkill))
      end
  end.

Record Breakdown := mkBreakdown {
  challengeScore : Q;
  endorsementScore : Q;
  proficiencyScore : Q;
  decayFactor : Q
}.

Record SkillCredibility := mkSkillCredibility {
  totalScore : Z;
  breakdown : Breakdown;
  isVerified : bool;
  error : option string
}.

Definition calculateSkillCredibility (now : Date) (db : DB)
    (userId skillId : ObjectId) : SkillCredibility :=
  let attempt : completion SkillCredibility :=
    challengeScore ← calculateChallengeScore now db userId skillId;
    endorsementScore ← calculateEndorsementScore db userId skillId;
    let proficiencyScore := calculateProficiencyScore db userId skillId in
    let decayFactor := calculateTimeDecay now db userId skillId in
    let totalScore :=
      Math_round
        ((challengeScore * (4 # 10) + endorsementScore * (35 # 100)
          + proficiencyScore * (25 # 100)) * decayFactor) in
    Normal
      (mkSkillCredibility (Z.min totalScore 100)
         (mkBreakdown challengeScore endorsementScore proficiencyScore decayFactor)
         (ge challengeScore 30 || ge endorsementScore 40)
         None) in
  match attempt with
  | Normal result => result
  | Thrown message =>
      mkSkillCredibility 0 (mkBreakdown 0 0 0 1) false (Some message)
  end.

(** One iteration of the loop of [updateAllSkillScores].  The scores are
    computed from the stored documents ([db]): nothing is saved before the
    loop ends. *)
Definition rescoreSkill (now : Date) (db : DB) (userId : ObjectId)
    (userSkill : UserSkill) : UserSkill :=
  let result := calculateSkillCredibility now db userId (us_skill userSkill) in
  mkUserSkill (us_skill userSkill) (us_proficiencyLevel userSkill)
    (us_yearsOfExperience userSkill)
    (isVerified result)
    (inject_Z (totalScore result))
    now.

(** The person document in memory when the loop of [updateAllSkillScores]
    has run and [user.updateCredibilityScore()] has returned. *)
Definition rescoreUser (now : Date) (db : DB) (userId : ObjectId) (user : User)
    : User :=
  let user :=
    mkUser (List.map (rescoreSkill now db userId) (u_skills user))
      (u_credibilityScore user) in
  UserModel.updateCredibilityScore user.

Definition updateAllSkillScores (now : Date) (db : DB) (userId : ObjectId) : DB :=
  match users db !! userId with
  | None => db
  | Some user => UserModel.save userId (rescoreUser now db userId user) db
  end.

(** [weight] in the loop of [calculateOverallCredibility]. *)
Definition overallWeight (userSkill : UserSkill) : Q :=
  us_proficiencyLevel userSkill * (us_yearsOfExperience userSkill + 1).

(** The loop of [calculateOverallCredibility]; the state is
    [(totalWeight, weightedSum)]. *)
Fixpoint overallLoop (skills : list UserSkill) (acc : Q * Q) : Q * Q :=
  match skills with
  | [] => acc
  | userSkill :: rest =>
      let '(totalWeight, weightedSum) := acc in
      let weight := overallWeight userSkill in
      overallLoop rest
        (totalWeight + weight, weightedSum + us_credibilityScore userSkill * weight)
  end.

Definition calculateOverallCredibility (db : DB) (userId : ObjectId) : Z :=
  match users db !! userId with
  | None => 0%Z
  | Some user =>
      if Nat.eqb (length (u_skills user)) 0 then 0%Z
      else
        let '(totalWeight, weightedSum) := overallLoop (u_skills user) (0, 0) in
        Math_round (weightedSum / totalWeight)
  end.

End skillScoring.

(** ** routes/recruiters.js *)

Module recruiters.

(** The [$switch] of the credibility distribution in [GET /analytics]: the
    label of the first branch whose [$gte] holds, else the default. *)
Definition credibilityBucket (credibilityScore : Q) : string :=
  if JS.ge credibilityScore 80 then "80-100"
  else if JS.ge credibilityScore 60 then "60-79"
  else if JS.ge credibilityScore 40 then "40-59"
  else if JS.ge credibilityScore 20 then "20-39"
  else "0-19".

End recruiters.

(** ** routes/challenges.js *)

Module challengesRoute.

Record TestCase := mkTestCase {
  tc_input : string;
  tc_expectedOutput : string
}.

Record TestResult := mkTestResult {
  tr_testCase : Z;
  tr_passed : bool;
  tr_input : string;
  tr_expectedOutput : string;
  tr_actualOutput : string
}.

Record Grading := mkGrading {
  g_score : Z;
  g_totalTests : nat;
  g_passedTests : Z;
  g_results : list TestResult
}.

(** [testCases.forEach((testCase, index) => ...)] of [evaluateTestCases];
    the state is [(passedCount, results)]. *)
Fixpoint evaluateLoop (testCases : list TestCase) (index : Z)
    (acc : Z * list TestResult) : Z * list TestResult :=
  match testCases with
  | [] => acc
  | testCase :: rest =>
      let '(passedCount, results) := acc in
      let passed := true in
      let passedCount := if passed then (passedCount + 1)%Z else passedCount in
      evaluateLoop rest (index + 1)%Z
        (passedCount,
         results ++ [mkTestResult (index + 1)%Z passed (tc_input testCase)
                       (tc_expectedOutput testCase) "..."])
  end.

(** [evaluateTestCases(content, testCases)]; [content] is not used. *)
Definition evaluateTestCases (testCases : list TestCase) : Grading :=
  let '(passedCount, results) := evaluateLoop testCases 0%Z (0%Z, []) in
  let score :=
    JS.Math_round
      ((inject_Z passedCount / inject_Z (Z.of_nat (length testCases))) * 100) in
  mkGrading score (length testCases) passedCount results.

(** [this.isModified('score')] after [submission.score = score]: true when
    the value changed; [sameValueMarks] is what the document reports when the
    value assigned is the value it had. *)
Definition scoreModified (sameValueMarks : bool) (old new : Q) : bool :=
  if Qeq_bool old new then sameValueMarks else true.

(** [challenge.testCases] on a document read by [Challenge.findById].  The
    schema of models/Challenge.js declares no path [testCases], so the
    property is undefined on every document the model returns. *)
Definition testCasesOf (challenge : Challenge) : option (list TestCase) := None.

(** The submission document at the end of [POST /:challengeId/submit], for
    the challenge found. *)
Definition gradedSubmission (now : Date) (sameValueMarks : bool)
    (userId challengeId : ObjectId) (challenge : Challenge) : Submission :=
  (* Submission.create({ user, challenge, content, ..., submittedAt }) *)
  let submission :=
    SubmissionModel.preSave false
      (mkSubmission userId (Some challengeId) 0 false false now) in
  let score : Q :=
    match testCasesOf challenge with
    | Some testCases =>
        if negb (Nat.eqb (length testCases) 0)
        then inject_Z (g_score (evaluateTestCases testCases))
        else 0
    | None => 0
    end in
  let isPassed := JS.ge score (ch_passingScore challenge) in
  let graded :=
    mkSubmission (sub_user submission) (sub_challenge submission) score isPassed
      (if isPassed then true else sub_isVerified submission)
      (sub_submittedAt submission) in
  (* submission.save() *)
  SubmissionModel.preSave (scoreModified sameValueMarks (sub_score submission) score)
    graded.

(** The paths [totalChallengesAttempted] and [totalChallengesPassed] of a
    user document.  They are kept beside the store, by person: the route
    below is the only code that writes them and nothing reads them. *)
Record Stats := mkStats {
  totalChallengesAttempted : Z;
  totalChallengesPassed : Z
}.

(** Both paths default to 0 in the schema. *)
Definition statsOf (stats : gmap N Stats) (userId : ObjectId) : Stats :=
  default (mkStats 0 0) (stats !! userId).

(** [POST /:challengeId/submit] after request validation: the status of the
    response, the store and the counters of the persons. *)
Definition submit (now : Date) (sameValueMarks : bool) (db : DB)
    (stats : gmap N Stats) (userId challengeId : ObjectId)
    : nat * DB * gmap N Stats :=
  match challenges db !! challengeId with
  | None => (404%nat, db, stats)
  | Some challenge =>
      let submission :=
        gradedSubmission now sameValueMarks userId challengeId challenge in
      let db :=
        mkDB (users db) (challenges db) (submissions db ++ [submission])
          (endorsements db) in
      match users db !! userId with
      | None => (500%nat, db, stats)
      | Some _ =>
          (* user.totalChallengesAttempted += 1; ...; user.save() *)
          let user := statsOf stats userId in
          let user :=
            mkStats (totalChallengesAttempted user + 1)%Z
              (if sub_isPassed submission
               then (totalChallengesPassed user + 1)%Z
               else totalChallengesPassed user) in
          let stats := <[userId := user]> stats in
          if sub_isPassed submission
          then (201%nat, skillScoring.updateAllSkillScores now db userId, stats)
          else (201%nat, db, stats)
      end
  end.

End challengesRoute.

(** ** routes/endorsements.js *)

Module endorsementsRoute.


End endorsementsRoute.

(** ** routes/users.js *)

Module usersRoute.

(** The body of [POST /skills] and [PUT /skills/:skillId];
    [yearsOfExperience] is [None] when the field is absent. *)
Record SkillRequest := mkSkillRequest {
  rq_proficiencyLevel : Q;
  rq_yearsOfExperience : option Q
}.

(** [isInt({ min, max })] on a number. *)
Definition isInt (x min : Q) (max : option Q) : bool :=
  Qeq_bool (inject_Z (Qfloor x)) x
  && JS.ge x min
  && match max with Some max => JS.ge max x | None => true end.

(** [validationResult(req).isEmpty()] for the chain
    [body('proficiencyLevel').isInt({ min: 1, max: 10 })],
    [body('yearsOfExperience').optional().isInt({ min: 0 })]. *)
Definition validated (rq : SkillRequest) : bool :=
  isInt (rq_proficiencyLevel rq) 1 (Some 10)
  && match rq_yearsOfExperience rq with
     | Some years => isInt years 0 None
     | None => true
     end.

(** The digit of [n mod 16] in lower case. *)
Definition hexDigit (n : N) : ascii :=
  match String.get (N.to_nat (n mod 16)) "0123456789abcdef" with
  | Some c => c
  | None => "0"%char
  end.

Fixpoint toHex (digits : nat) (n : N) (acc : string) : string :=
  match digits with
  | O => acc
  | S digits => toHex digits (n / 16)%N (String (hexDigit n) acc)
  end.

(** [id.toString()]: the 24 hexadecimal digits of the id, in lower case. *)
Definition toString (id : ObjectId) : string := toHex 24 id "".

Arguments toString : simpl never.

(** The value of a hexadecimal digit, written in either case. *)
Definition hexValue (c : ascii) : option N :=
  let n := N_of_ascii c in
  if (48 <=? n)%N && (n <=? 57)%N then Some (n - 48)%N
  else if (97 <=? n)%N && (n <=? 102)%N then Some (n - 87)%N
  else if (65 <=? n)%N && (n <=? 70)%N then Some (n - 55)%N
  else None.

Fixpoint fromHex (s : string) (acc : N) : option N :=
  match s with
  | EmptyString => Some acc
  | String c rest =>
      match hexValue c with
      | Some d => fromHex rest (16 * acc + d)%N
      | None => None
      end
  end.

(** The id that a string of 24 hexadecimal digits is cast to when it is
    given to [findById] or stored in a path of type ObjectId: the digits are
    read in either case. *)
Definition castHex (s : string) : option ObjectId :=
  if Nat.eqb (String.length s) 24 then fromHex s 0%N else None.

(** [user.skills.find(s => s.skill.toString() === skillId)], where [skillId]
    is the string of the request body. *)
Definition findSpelled (user : User) (skillId : string) : option UserSkill :=
  List.find (fun s => String.eqb (toString (us_skill s)) skillId) (u_skills user).

(** [POST /skills]: the status of the response and the store.  [skillId] is
    the string of the request body as it was sent.  [skill] is the outcome of
    [Skill.findById(skillId)]: an error when the string cannot be cast to an
    id, [None] when no skill has the id it is cast to, and otherwise the
    [_id] of the skill found.  That id is also the one stored by
    [user.skills.push({ skill: skillId, ... })], which casts the same
    string. *)
Definition addSkill (now : Date) (skill : JS.completion (option ObjectId))
    (db : DB) (userId : ObjectId) (skillId : string) (rq : SkillRequest)
    : nat * DB :=
  if negb (validated rq) then (400%nat, db)
  else
    match skill with
    | JS.Thrown _ => (500%nat, db)
    | JS.Normal None => (404%nat, db)
    | JS.Normal (Some id) =>
        match users db !! userId with
        | None => (500%nat, db)
        | Some user =>
            match findSpelled user skillId with
            | Some _ => (400%nat, db)
            | None =>
                let yearsOfExperience :=
                  match rq_yearsOfExperience rq with
                  | Some years => JS.or_default years 0
                  | None => 0
                  end in
                let user :=
                  mkUser
                    (u_skills user
                     ++ [mkUserSkill id (rq_proficiencyLevel rq) yearsOfExperience
                           false 0 now])
                    (u_credibilityScore user) in
                (201%nat, UserModel.save userId user db)
            end
        end
    end.

(** The assignments of [PUT /skills/:skillId] to the record found. *)
Definition edit (now : Date) (rq : SkillRequest) (userSkill : UserSkill) : UserSkill :=
  mkUserSkill (us_skill userSkill) (rq_proficiencyLevel rq)
    (match rq_yearsOfExperience rq with
     | Some years => years
     | None => us_yearsOfExperience userSkill
     end)
    (us_isVerified userSkill) (us_credibilityScore userSkill) now.

(** [user.skills] after the record that [find] returns was assigned to. *)
Fixpoint editFirst (now : Date) (rq : SkillRequest) (skillId : ObjectId)
    (skills : list UserSkill) : list UserSkill :=
  match skills with
  | [] => []
  | s :: rest =>
      if N.eqb (us_skill s) skillId then edit now rq s :: rest
      else s :: editFirst now rq skillId rest
  end.

(** The store after the [user.save()] of [PUT /skills/:skillId]. *)
Definition edited (now : Date) (db : DB) (userId skillId : ObjectId)
    (rq : SkillRequest) (user : User) : DB :=
  UserModel.save userId
    (mkUser (editFirst now rq skillId (u_skills user)) (u_credibilityScore user)) db.

(** [PUT /skills/:skillId] *)
Definition updateSkill (now : Date) (db : DB) (userId skillId : ObjectId)
    (rq : SkillRequest) : nat * DB :=
  if negb (validated rq) then (400%nat, db)
  else
    match users db !! userId with
    | None => (500%nat, db)
    | Some user =>
        match UserModel.findSkill user skillId with
        | None => (404%nat, db)
        | Some _ =>
            (200%nat,
             skillScoring.updateAllSkillScores now
               (edited now db userId skillId rq user) userId)
        end
    end.

(** [user.skills.splice(skillIndex, 1)] for the index that [findIndex]
    returns. *)
Fixpoint removeFirst (skillId : ObjectId) (skills : list UserSkill)
    : list UserSkill :=
  match skills with
  | [] => []
  | s :: rest =>
      if N.eqb (us_skill s) skillId then rest else s :: removeFirst skillId rest
  end.

(** [DELETE /skills/:skillId] *)
Definition deleteSkill (now : Date) (db : DB) (userId skillId : ObjectId)
    : nat * DB :=
  match users db !! userId with
  | None => (500%nat, db)
  | Some user =>
      match UserModel.findSkill user skillId with
      | None => (404%nat, db)
      | Some _ =>
          let user :=
            mkUser (removeFirst skillId (u_skills user)) (u_credibilityScore user) in
          (200%nat,
           skillScoring.updateAllSkillScores now (UserModel.save userId user db) userId)
      end
  end.

End usersRoute.

(** ** The averages on binary64 numbers

    The two weighted averages and the endorsement score, on the numbers the
    program runs on.  The functions are those of [skillScoring] and
    [UserModel] with the store taken away: they take the documents that
    [findById] and [find(...).populate('endorser')] return. *)

Module Binary64.

Local Open Scope float_scope.

Definition two52 : float := 4503599627370496.

(** [Math.floor]: numbers of magnitude [2^52] and more are integers. *)
Definition Math_floor (x : float) : float :=
  if abs x <? two52 then
    let t := if 0 <=? x then (x + two52) - two52 else (x - two52) + two52 in
    if x <? t then t - 1 else t
  else x.

(** [Math.round]: the nearest integer, half-way cases towards [+Infinity]. *)
Definition Math_round (x : float) : float :=
  let f := Math_floor x in
  if 0.5 <=? x - f then f + 1 else f.

(** [Math.min] of two numbers. *)
Definition Math_min (x y : float) : float :=
  if x <? y then x else if y <? x then y else if x =? y then x else nan.

(** [array.length] as a number. *)
Fixpoint length {A : Type} (l : list A) : float :=
  match l with
  | [] => 0
  | _ :: l => length l + 1
  end.

(** The paths of an element of [user.skills] that the averages read. *)
Record UserSkill := mkUserSkill {
  proficiencyLevel : float;
  yearsOfExperience : float;
  credibilityScore : float
}.

(** The loop of [calculateOverallCredibility]; the state is
    [(totalWeight, weightedSum)]. *)
Fixpoint overallLoop (skills : list UserSkill) (acc : float * float)
    : float * float :=
  match skills with
  | [] => acc
  | userSkill :: rest =>
      let '(totalWeight, weightedSum) := acc in
      let weight := proficiencyLevel userSkill * (yearsOfExperience userSkill + 1) in
      overallLoop rest
        (totalWeight + weight, weightedSum + credibilityScore userSkill * weight)
  end.

(** [calculateOverallCredibility]; [user] is the result of [User.findById],
    reduced to its skills. *)
Definition calculateOverallCredibility (user : option (list UserSkill)) : float :=
  match user with
  | None => 0
  | Some [] => 0
  | Some skills =>
      let '(totalWeight, weightedSum) := overallLoop skills (0, 0) in
      Math_round (weightedSum / totalWeight)
  end.

(** The loop of [userSchema.methods.updateCredibilityScore]. *)
Fixpoint weighSkills (skills : list UserSkill) (acc : float * float)
    : float * float :=
  match skills with
  | [] => acc
  | userSkill :: rest =>
      let '(totalWeight, weightedSum) := acc in
      let weight := proficiencyLevel userSkill * yearsOfExperience userSkill + 1 in
      weighSkills rest
        (totalWeight + weight, weightedSum + credibilityScore userSkill * weight)
  end.

(** The value that [updateCredibilityScore] assigns to
    [this.credibilityScore]. *)
Definition updateCredibilityScore (skills : list UserSkill) : float :=
  match skills with
  | [] => 0
  | _ =>
      let '(totalWeight, weightedSum) := weighSkills skills (0, 0) in
      Math_round (weightedSum / totalWeight)
  end.

(** A valid endorsement with its endorser populated: [levelValue] is
    [LEVEL_VALUES[endorsement.level] || 1], [endorserCredibility] is
    [endorsement.endorser.credibilityScore || 0]. *)
Record Endorsement := mkEndorsement {
  levelValue : float;
  endorserCredibility : float;
  weight : float
}.

(** The loop of [calculateEndorsementScore]; the state is
    [(totalLevelScore, totalWeightScore)]. *)
Fixpoint endorsementLoop (endorsements : list Endorsement) (acc : float * float)
    : float * float :=
  match endorsements with
  | [] => acc
  | endorsement :: rest =>
      let '(totalLevelScore, totalWeightScore) := acc in
      endorsementLoop rest
        (totalLevelScore + levelValue endorsement,
         totalWeightScore + endorserCredibility endorsement * weight endorsement)
  end.

(** [calculateEndorsementScore] on the endorsements found. *)
Definition calculateEndorsementScore (endorsements : list Endorsement) : float :=
  match endorsements with
  | [] => 0
  | _ =>
      let '(totalLevelScore, totalWeightScore) := endorsementLoop endorsements (0, 0) in
      let maxLevelScore := length endorsements * 4 in
      let maxWeightScore := length endorsements * 100 in
      let normalizedLevel := (totalLevelScore / maxLevelScore) * 50 in
      let normalizedWeight := (totalWeightScore / maxWeightScore) * 30 in
      let countBonus := Math_min (length endorsements * 2) 20 in
      Math_min (normalizedLevel + normalizedWeight + countBonus) 100
  end.

(** The whole number [n]. *)
Fixpoint ofNat (n : nat) : float :=
  match n with
  | O => 0
  | S n => ofNat n + 1
  end.

(** Whether the score of [k + 1] copies of an endorsement is at least the
    score of [k] copies, for every [k] below [n]. *)
Definition neverDrops (endorsement : Endorsement) (n : nat) : bool :=
  List.forallb
    (fun k =>
       calculateEndorsementScore (List.repeat endorsement k)
       <=? calculateEndorsementScore (List.repeat endorsement (S k)))
    (List.seq 0 n).

End Binary64.

(** ** The decay rule as the design document words it *)

Module Design.

(** [x] clamped to the range [[lo, hi]]. *)
Definition clamp (lo hi x : Q) : Q :=
  if JS.lt x lo then lo else if JS.lt hi x then hi else x.

(** Decay is 1 below 90 days, otherwise [1 - (t - 90)/(365*2)] clamped to
    [[0.5, 1]]. *)
Definition decay (daysSinceUpdate : Q) : Q :=
  if JS.lt daysSinceUpdate 90 then 1
  else clamp (1 # 2) 1 (1 - (daysSinceUpdate - 90) / (365 * 2)).

(** The experience weight of one skill in the overall score:
    [proficiencyLevel * (yearsOfExperience + 1)]. *)
Definition weight (userSkill : UserSkill) : Q :=
  us_proficiencyLevel userSkill * (us_yearsOfExperience userSkill + 1).

Definition sumQ (l : list Q) : Q := List.fold_right Qplus 0 l.

(** [round(sum(credibilityScore * w) / sum(w))] for a weight [w], 0 without
    skills. *)
Definition weightedAverage (w : UserSkill -> Q) (skills : list UserSkill) : Z :=
  match skills with
  | [] => 0%Z
  | _ =>
      JS.Math_round
        (sumQ (List.map (fun s => us_credibilityScore s * w s) skills)
         / sumQ (List.map w skills))
  end.

(** The overall credibility score of the design document. *)
Definition overall (skills : list UserSkill) : Z := weightedAverage weight skills.

End Design.

(** ** Concrete stores used by the examples *)

Module Scenario.

Definition day : Z := 86400000.
Definition today : Date := (1000 * day)%Z.

Definition alice : ObjectId := 1%N.
Definition bob : ObjectId := 2%N.
Definition rocq : ObjectId := 10%N.
Definition ocaml : ObjectId := 11%N.
Definition kata : ObjectId := 20%N.

(** Scenario A of the design document: one verified, passed submission,
    medium difficulty, score 90, submitted today. *)
Definition scenarioA : DB :=
  mkDB {[ alice := mkUser [] 0 ]}
       {[ kata := mkChallenge rocq medium 70 ]}
       [mkSubmission alice (Some kata) 90 true true today]
       [].

(** Two skills with different proficiency levels and no other evidence. *)
Definition twoSkills : DB :=
  mkDB {[ alice := mkUser [mkUserSkill rocq 10 0 false 0 today;
                           mkUserSkill ocaml 1 0 false 0 today] 0 ]}
       ∅ [] [].

(** One skill last touched 400 days ago. *)
Definition stale : DB :=
  mkDB {[ alice := mkUser [mkUserSkill rocq 10 10 false 0 (today - 400 * day)%Z] 0 ]}
       ∅ [] [].



(** A store with every kind of evidence for [alice]'s skill [rocq]. *)
Definition full : DB :=
  mkDB {[ alice := mkUser [mkUserSkill rocq 5 3 false 0 (today - 10 * day)%Z;
                           mkUserSkill ocaml 2 1 false 0 (today - 20 * day)%Z] 0;
          bob := mkUser [] 80 ]}
       {[ kata := mkChallenge rocq medium 70 ]}
       [mkSubmission alice (Some kata) 90 true true today]
       [mkEndorsement bob alice rocq level_expert (9 # 10) true].

(** A graded submission for a challenge whose own threshold is 80. *)
Definition graded : Submission :=
  mkSubmission alice (Some kata) 75 false false today.

(** A verified, passed submission whose challenge document is gone. *)
Definition dangling : DB :=
  mkDB {[ alice := mkUser [mkUserSkill rocq 5 3 false 0 today] 0 ]}
       ∅
       [mkSubmission alice (Some kata) 90 true true today]
       [].

End Scenario.

(** ** Vocabulary of the statements *)

Module Evidence.

(** The person is unknown, or owns no record for the skill. *)
Definition noSkillRecord (db : DB) (userId skillId : ObjectId) : Prop :=
  users db !! userId = None
  \/ exists user, users db !! userId = Some user
                  /\ UserModel.findSkill user skillId = None.

(** The submission belongs, through its challenge, to another skill. *)
Definition forOtherSkill (db : DB) (skillId : ObjectId) (s : Submission) : Prop :=
  exists challenge,
    SubmissionModel.populateChallenge db s = Some challenge
    /\ ch_skill challenge <> skillId.


(** [endorsements.length] as a number. *)
Definition count (es : list Endorsement) : Q := inject_Z (Z.of_nat (length es)).


(** Every skill record of the person was touched less than 90 days before
    [now]. *)
Definition recentlyUpdated (now : Date) (db : DB) (userId : ObjectId) : Prop :=
  forall user,
    users db !! userId = Some user ->
    Forall (fun s => daysBetween now (us_lastUpdated s) < 90) (u_skills user).

(** No valid endorsement received by the person was given by the person. *)
Definition noSelfEndorsement (db : DB) (userId : ObjectId) : Prop :=
  Forall (fun e => en_recipient e = userId -> en_isValid e = true ->
                   en_endorser e <> userId)
    (endorsements db).

(** The per-skill scores and the overall score stored for a person. *)
Definition storedScores (db : DB) (userId : ObjectId) : option (list Q * Q) :=
  (fun user => (List.map us_credibilityScore (u_skills user),
                u_credibilityScore user))
  <$> users db !! userId.

(** The submission belongs, through its challenge, to the skill. *)
Definition forThisSkill (db : DB) (skillId : ObjectId) (s : Submission) : Prop :=
  exists challenge,
    SubmissionModel.populateChallenge db s = Some challenge
    /\ ch_skill challenge = skillId.

(** No submission is dated after [now]. *)
Definition notFromFuture (now : Date) (db : DB) : Prop :=
  Forall (fun s => (sub_submittedAt s <= now)%Z) (submissions db).

(** Every reference the scoring of (person, skill) follows resolves. *)
Definition referencesResolve (db : DB) (userId skillId : ObjectId) : Prop :=
  Forall (fun s => is_Some (SubmissionModel.populateChallenge db s))
    (SubmissionModel.findVerifiedPassed db userId)
  /\ Forall (fun e => is_Some (EndorsementModel.populateEndorser db e))
       (EndorsementModel.findValid db userId skillId).

(** The bounds each label of the credibility distribution spells out. *)
Definition bucketBounds : list (string * (Z * Z)) :=
  [("80-100"%string, (80, 100)%Z); ("60-79"%string, (60, 79)%Z);
   ("40-59"%string, (40, 59)%Z); ("20-39"%string, (20, 39)%Z);
   ("0-19"%string, (0, 19)%Z)].

(** No person owns two records for one skill. *)
Definition noDuplicateSkills (db : DB) : Prop :=
  map_Forall (fun _ user => NoDup (List.map us_skill (u_skills user))) (users db).

Definition scoreInRange (x : Q) : Prop := 0 <= x <= 100.

Definition skillInRange (userSkill : UserSkill) : Prop :=
  1 <= us_proficiencyLevel userSkill <= 10
  /\ 0 <= us_yearsOfExperience userSkill.

Definition userInRange (user : User) : Prop :=
  scoreInRange (u_credibilityScore user)
  /\ Forall skillInRange (u_skills user).

(** Every stored input is in its range: submission scores in [[0,100]],
    endorsement weights in [[0,1]], overall credibility of every person in
    [[0,100]], proficiency levels in [[1,10]], years of experience
    non-negative. *)
Definition inRange (db : DB) : Prop :=
  Forall (fun s => scoreInRange (sub_score s)) (submissions db)
  /\ Forall (fun e => 0 <= en_weight e <= 1) (endorsements db)
  /\ map_Forall (fun _ user => userInRange user) (users db).

(** A bound on the years of experience under which the weights and the
    weighted sums of the overall score stay far inside the binary64 range
    for any number of skills a document can hold. *)
Definition maxYears : Q := inject_Z (10 ^ 21).


End Evidence.

(** * Properties *)

Import JS skillScoring Evidence.

(** ** Arithmetic of the JavaScript primitives *)

Section Primitives.

Lemma lt_spec (x y : Q) : lt x y = true <-> x < y.
Proof.
  unfold lt. rewrite negb_true_iff. split.
  - intros H. apply Qnot_le_lt. intros Hle.
    apply Qle_bool_iff in Hle. congruence.
  - intros H. destruct (Qle_bool y x) eqn:E; [|reflexivity].
    apply Qle_bool_iff in E. exfalso. apply (Qlt_not_le _ _ H E).
Qed.

Lemma lt_false (x y : Q) : lt x y = false <-> y <= x.
Proof.
  unfold lt. rewrite negb_false_iff. apply Qle_bool_iff.
Qed.

Lemma ge_spec (x y : Q) : ge x y = true <-> y <= x.
Proof. unfold ge. apply Qle_bool_iff. Qed.

Lemma or_default_zero (x : Q) : or_default x 0 == x.
Proof.
  unfold or_default. destruct (Qeq_bool x 0) eqn:E; [|reflexivity].
  apply Qeq_bool_iff in E. symmetry. exact E.
Qed.

Lemma min_le_r (x y : Q) : Math_min x y <= y.
Proof. apply Q.le_min_r. Qed.

Lemma min_glb (x y z : Q) : z <= x -> z <= y -> z <= Math_min x y.
Proof. intros. apply Q.min_glb; assumption. Qed.

Lemma Math_round_nonneg (x : Q) : 0 <= x -> (0 <= Math_round x)%Z.
Proof.
  intros H. unfold Math_round.
  change 0%Z with (Qfloor 0). apply Qfloor_resp_le. lra.
Qed.

Lemma Math_round_le_100 (x : Q) : x <= 100 -> (Math_round x <= 100)%Z.
Proof.
  intros H. unfold Math_round.
  change 100%Z with (Qfloor (201 # 2)). apply Qfloor_resp_le. lra.
Qed.

Lemma Math_round_comp (x y : Q) : x == y -> Math_round x = Math_round y.
Proof. intros H. unfold Math_round. apply Qfloor_comp. rewrite H. reflexivity. Qed.

Lemma daysBetween_same (t : Date) : daysBetween t t == 0.
Proof.
  unfold daysBetween. rewrite Z.sub_diag. reflexivity.
Qed.

End Primitives.

(** ** DecayCalculator *)

Section Decay.

Lemma decayAfter_fresh (t : Q) : t < 90 -> decayAfter t = 1.
Proof. intros H. unfold decayAfter. apply lt_spec in H. rewrite H. reflexivity. Qed.

Lemma decayAfter_old (t : Q) :
  90 <= t ->
  decayAfter t = Qmax (1 # 2) (Qmin (1 - (t - 90) / (365 * 2)) 1).
Proof. intros H. unfold decayAfter. apply lt_false in H. rewrite H. reflexivity. Qed.

Lemma decayAfter_lower (t : Q) : 1 # 2 <= decayAfter t.
Proof.
  destruct (Qlt_le_dec t 90) as [H|H].
  - rewrite (decayAfter_fresh _ H). lra.
  - rewrite (decayAfter_old _ H). apply Q.le_max_l.
Qed.

Lemma decayAfter_upper (t : Q) : decayAfter t <= 1.
Proof.
  destruct (Qlt_le_dec t 90) as [H|H].
  - rewrite (decayAfter_fresh _ H). lra.
  - rewrite (decayAfter_old _ H). apply Q.max_lub; [lra | apply Q.le_min_r].
Qed.

Lemma decayAfter_antitone (t t' : Q) : t <= t' -> decayAfter t' <= decayAfter t.
Proof.
  intros Hle. destruct (Qlt_le_dec t 90) as [H|H].
  - rewrite (decayAfter_fresh _ H). apply decayAfter_upper.
  - assert (H' : 90 <= t') by lra.
    rewrite (decayAfter_old _ H), (decayAfter_old _ H').
    apply Q.max_le_compat_l, Q.min_le_compat_r.
    unfold Qdiv. assert (0 < / (365 * 2)) by reflexivity.
    assert ((t - 90) * / (365 * 2) <= (t' - 90) * / (365 * 2)).
    { apply Qmult_le_compat_r; lra. }
    lra.
Qed.

Lemma decayAfter_design (t : Q) : decayAfter t == Design.decay t.
Proof.
  unfold Design.decay. destruct (lt t 90) eqn:E.
  - apply lt_spec in E. rewrite (decayAfter_fresh _ E). reflexivity.
  - apply lt_false in E. rewrite (decayAfter_old _ E).
    unfold Design.clamp.
    set (d := 1 - (t - 90) / (365 * 2)).
    destruct (lt d (1 # 2)) eqn:E1.
    + apply lt_spec in E1. apply Q.max_l.
      apply Qle_trans with d; [apply Q.le_min_l | lra].
    + apply lt_false in E1. destruct (lt 1 d) eqn:E2.
      * apply lt_spec in E2. rewrite Q.min_r by lra. apply Q.max_r. lra.
      * apply lt_false in E2. rewrite Q.min_l by lra. apply Q.max_r. lra.
Qed.

(** C5: for every [t >= 0] the decay factor computed by [calculateTimeDecay]
    is 1 below 90 days and [1 - (t - 90)/(365*2)] clamped to [[0.5, 1]] from
    90 days on; it never increases with [t] and never drops below 0.5. *)
Theorem C5_decay_rule (t : Q) :
  0 <= t ->
  (t < 90 -> decayAfter t == 1)
  /\ (90 <= t ->
      decayAfter t == Design.clamp (1 # 2) 1 (1 - (t - 90) / (365 * 2)))
  /\ decayAfter t == Design.decay t
  /\ (forall t', t <= t' -> decayAfter t' <= decayAfter t)
  /\ 1 # 2 <= decayAfter t.
Proof.
  intros _. repeat split.
  - intros H. rewrite (decayAfter_fresh _ H). reflexivity.
  - intros H. rewrite decayAfter_design. unfold Design.decay.
    apply lt_false in H. rewrite H. reflexivity.
  - apply decayAfter_design.
  - intros t'. apply decayAfter_antitone.
  - apply decayAfter_lower.
Qed.

Lemma C5_decay_rule_witness :
  0 <= 400
  /\ decayAfter 400 == Design.decay 400
  /\ 1 # 2 <= decayAfter 400.
Proof.
  split; [lra|].
  destruct (C5_decay_rule 400 ltac:(lra)) as (_ & _ & Hd & _ & Hl).
  split; assumption.
Defined.

End Decay.

(** ** Missing records *)

Section MissingRecords.

Lemma calculateTimeDecay_found now db userId skillId user userSkill :
  users db !! userId = Some user ->
  UserModel.findSkill user skillId = Some userSkill ->
  calculateTimeDecay now db userId skillId
  = decayAfter (daysBetween now (us_lastUpdated userSkill)).
Proof. intros Hu Hs. unfold calculateTimeDecay. rewrite Hu, Hs. reflexivity. Qed.

(** Scenario E: a record last touched 400 days ago decays to
    [1 - 310/730 = 42/73], about 0.575. *)
Example decay_400_days :
  calculateTimeDecay Scenario.today Scenario.stale Scenario.alice Scenario.rocq
  == 42 # 73.
Proof. vm_compute. reflexivity. Qed.

(** C10: when the person record does not exist, or the person owns no record
    for the skill, [calculateTimeDecay] returns 1 instead of failing; 1 is
    the most favourable multiplier the function ever returns. *)
Theorem C10_decay_of_missing_record now db userId skillId :
  noSkillRecord db userId skillId ->
  calculateTimeDecay now db userId skillId = 1
  /\ forall now' db' userId' skillId',
       calculateTimeDecay now' db' userId' skillId' <= 1.
Proof.
  intros H. split.
  - unfold calculateTimeDecay. destruct H as [Hu | (user & Hu & Hs)].
    + rewrite Hu. reflexivity.
    + rewrite Hu, Hs. reflexivity.
  - intros now' db' userId' skillId'. unfold calculateTimeDecay.
    destruct (users db' !! userId') as [user|]; [|lra].
    destruct (UserModel.findSkill user skillId'); [apply decayAfter_upper | lra].
Qed.

Lemma C10_decay_of_missing_record_witness :
  noSkillRecord Scenario.stale Scenario.bob Scenario.rocq
  /\ noSkillRecord Scenario.stale Scenario.alice Scenario.ocaml
  /\ calculateTimeDecay Scenario.today Scenario.stale Scenario.bob Scenario.rocq = 1
  /\ calculateTimeDecay Scenario.today Scenario.stale Scenario.alice Scenario.ocaml = 1.
Proof.
  assert (H1 : noSkillRecord Scenario.stale Scenario.bob Scenario.rocq).
  { left. reflexivity. }
  assert (H2 : noSkillRecord Scenario.stale Scenario.alice Scenario.ocaml).
  { right. eexists. split; reflexivity. }
  exact (conj H1 (conj H2 (conj
    (proj1 (C10_decay_of_missing_record Scenario.today _ _ _ H1))
    (proj1 (C10_decay_of_missing_record Scenario.today _ _ _ H2))))).
Defined.

End MissingRecords.

(** ** The pre-save hook of a submission *)

Section PreSave.

(** C9: when the score of a submission was modified, the pre-save hook sets
    [isPassed] to [score >= 70], a fixed threshold: the passing score of the
    referenced challenge is not consulted.  The submission references a
    challenge, as the schema requires. *)
Theorem C9_isPassed_fixed_threshold (s : Submission) (challengeId : ObjectId) :
  sub_challenge s = Some challengeId ->
  let saved := SubmissionModel.preSave true s in
  sub_isPassed saved = ge (sub_score s) 70
  /\ (sub_isPassed saved = true <-> 70 <= sub_score s)
  /\ sub_score saved = sub_score s
  /\ sub_challenge saved = sub_challenge s.
Proof.
  intros Hc. unfold SubmissionModel.preSave. rewrite Hc. simpl.
  repeat split; try reflexivity; apply ge_spec.
Qed.

Lemma C9_isPassed_fixed_threshold_witness :
  sub_challenge Scenario.graded = Some Scenario.kata
  /\ sub_isPassed (SubmissionModel.preSave true Scenario.graded) = true.
Proof.
  split; [reflexivity|].
  destruct (C9_isPassed_fixed_threshold Scenario.graded Scenario.kata eq_refl)
    as (H & _).
  rewrite H. reflexivity.
Defined.

(** The threshold of the challenge plays no role: a score of 75 passes
    although the challenge asks for 80. *)
Example preSave_ignores_passingScore :
  let challenge := mkChallenge Scenario.rocq medium 80 in
  ge (sub_score Scenario.graded) (ch_passingScore challenge) = false
  /\ sub_isPassed (SubmissionModel.preSave true Scenario.graded) = true.
Proof. split; reflexivity. Qed.

Lemma preSave_unmodified (s : Submission) : SubmissionModel.preSave false s = s.
Proof. reflexivity. Qed.

End PreSave.

(** ** Zero evidence *)

Section ZeroEvidence.

Lemma challengeLoop_skips now db skillId subs acc :
  Forall (forOtherSkill db skillId) subs ->
  challengeLoop now db skillId subs acc = Normal acc.
Proof.
  induction 1 as [|s subs (c & Hc & Hne) _ IH]; simpl; [reflexivity|].
  rewrite Hc. apply N.eqb_neq in Hne. rewrite Hne. simpl. exact IH.
Qed.

Lemma calculateChallengeScore_none now db userId skillId :
  Forall (forOtherSkill db skillId) (SubmissionModel.findVerifiedPassed db userId) ->
  calculateChallengeScore now db userId skillId = Normal 0.
Proof.
  intros H. unfold calculateChallengeScore.
  destruct (Nat.eqb _ 0); [reflexivity|].
  rewrite (challengeLoop_skips _ _ _ _ _ H). reflexivity.
Qed.

Lemma calculateEndorsementScore_none db userId skillId :
  EndorsementModel.findValid db userId skillId = [] ->
  calculateEndorsementScore db userId skillId = Normal 0.
Proof. intros H. unfold calculateEndorsementScore. rewrite H. reflexivity. Qed.

Lemma calculateProficiencyScore_none db userId skillId :
  noSkillRecord db userId skillId ->
  calculateProficiencyScore db userId skillId = 0.
Proof.
  unfold calculateProficiencyScore. intros [Hu | (user & Hu & Hs)].
  - rewrite Hu. reflexivity.
  - rewrite Hu, Hs. reflexivity.
Qed.

Lemma challengeLoop_without_evidence now db skillId subs acc :
  ~ Exists (forThisSkill db skillId) subs ->
  challengeLoop now db skillId subs acc = Normal acc
  \/ exists message, challengeLoop now db skillId subs acc = Thrown message.
Proof.
  induction subs as [|s subs IH]; intros Hnone; simpl; [left; reflexivity|].
  destruct (SubmissionModel.populateChallenge db s) as [challenge|] eqn:Hc;
    [|right; eexists; reflexivity].
  destruct (N.eqb (ch_skill challenge) skillId) eqn:E; simpl.
  - exfalso. apply Hnone. left. exists challenge.
    split; [exact Hc | apply N.eqb_eq, E].
  - apply IH. intros H. apply Hnone. right. exact H.
Qed.

Lemma calculateChallengeScore_without_evidence now db userId skillId :
  ~ Exists (forThisSkill db skillId) (SubmissionModel.findVerifiedPassed db userId) ->
  calculateChallengeScore now db userId skillId = Normal 0
  \/ exists message,
       calculateChallengeScore now db userId skillId = Thrown message.
Proof.
  intros Hnone. unfold calculateChallengeScore.
  destruct (Nat.eqb _ 0); [left; reflexivity|].
  destruct (challengeLoop_without_evidence now db skillId _ (0, 0) Hnone)
    as [H | [message H]]; rewrite H.
  - left. reflexivity.
  - right. exists message. reflexivity.
Qed.

(** The person of [Scenario.dangling] has no verified, passed submission for
    the skill [ocaml]: the only submission refers to a challenge that is
    gone.  [calculateChallengeScore] does not return 0, it throws when it
    reads the skill of the missing challenge. *)
Lemma C6_missing_challenge_throws :
  ~ Exists (forThisSkill Scenario.dangling Scenario.ocaml)
      (SubmissionModel.findVerifiedPassed Scenario.dangling Scenario.alice)
  /\ calculateChallengeScore Scenario.today Scenario.dangling Scenario.alice
       Scenario.ocaml
     = Thrown "Cannot read properties of null (reading 'skill')"
  /\ calculateChallengeScore Scenario.today Scenario.dangling Scenario.alice
       Scenario.ocaml
     <> Normal 0.
Proof.
  split; [|split; [reflexivity | discriminate]].
  intros H. apply Exists_exists in H. destruct H as (s & _ & challenge & Hc & _).
  revert Hc. unfold SubmissionModel.populateChallenge, Scenario.dangling. simpl.
  destruct (sub_challenge s); [rewrite lookup_empty|]; discriminate.
Qed.

(** C6 (amended): zero evidence yields a zero score.  When every verified,
    passed submission of the person refers to an existing challenge of
    another skill (in particular when there is none),
    [calculateChallengeScore] returns 0.  When none of them is for the skill
    but some refer to a missing challenge, it returns 0 or throws, and the
    challenge score reported by [calculateSkillCredibility] is 0 either way.
    Without a valid endorsement for the (recipient, skill) pair
    [calculateEndorsementScore] returns 0; without a skill record
    [calculateProficiencyScore] returns 0. *)
Theorem C6_zero_evidence_zero_score now db userId skillId :
  (Forall (forOtherSkill db skillId)
     (SubmissionModel.findVerifiedPassed db userId) ->
   calculateChallengeScore now db userId skillId = Normal 0)
  /\ (~ Exists (forThisSkill db skillId)
          (SubmissionModel.findVerifiedPassed db userId) ->
      (calculateChallengeScore now db userId skillId = Normal 0
       \/ exists message,
            calculateChallengeScore now db userId skillId = Thrown message)
      /\ challengeScore (breakdown (calculateSkillCredibility now db userId skillId))
         = 0)
  /\ (EndorsementModel.findValid db userId skillId = [] ->
      calculateEndorsementScore db userId skillId = Normal 0)
  /\ (noSkillRecord db userId skillId ->
      calculateProficiencyScore db userId skillId = 0).
Proof.
  split; [|split; [|split]].
  - apply calculateChallengeScore_none.
  - intros Hnone.
    pose proof (calculateChallengeScore_without_evidence now db userId skillId Hnone)
      as Hc.
    split; [exact Hc|]. unfold calculateSkillCredibility.
    destruct Hc as [Hc | [message Hc]]; rewrite Hc; simpl; [|reflexivity].
    destruct (calculateEndorsementScore db userId skillId); reflexivity.
  - apply calculateEndorsementScore_none.
  - apply calculateProficiencyScore_none.
Qed.

Lemma C6_zero_evidence_zero_score_witness :
  let db := Scenario.full in
  let userId := Scenario.alice in
  let skillId := Scenario.ocaml in
  Forall (forOtherSkill db skillId) (SubmissionModel.findVerifiedPassed db userId)
  /\ EndorsementModel.findValid db userId skillId = []
  /\ noSkillRecord db Scenario.bob skillId
  /\ calculateChallengeScore Scenario.today db userId skillId = Normal 0
  /\ calculateEndorsementScore db userId skillId = Normal 0
  /\ calculateProficiencyScore db Scenario.bob skillId = 0
  /\ challengeScore
       (breakdown (calculateSkillCredibility Scenario.today Scenario.dangling
                     userId skillId))
     = 0.
Proof.
  intros db userId skillId.
  assert (H1 : Forall (forOtherSkill db skillId)
                 (SubmissionModel.findVerifiedPassed db userId)).
  { repeat constructor. exists (mkChallenge Scenario.rocq medium 70).
    split; [reflexivity | discriminate]. }
  assert (H2 : EndorsementModel.findValid db userId skillId = []) by reflexivity.
  assert (H3 : noSkillRecord db Scenario.bob skillId).
  { right. eexists. split; reflexivity. }
  assert (H4 : ~ Exists (forThisSkill Scenario.dangling skillId)
                   (SubmissionModel.findVerifiedPassed Scenario.dangling userId)).
  { intros H. apply Exists_exists in H.
    destruct H as (s & _ & challenge & Hc & _).
    revert Hc. unfold SubmissionModel.populateChallenge, Scenario.dangling. simpl.
    destruct (sub_challenge s); [rewrite lookup_empty|]; discriminate. }
  exact (conj H1 (conj H2 (conj H3 (conj
    (proj1 (C6_zero_evidence_zero_score Scenario.today db userId skillId) H1)
    (conj
      (proj1 (proj2 (proj2
         (C6_zero_evidence_zero_score Scenario.today db userId skillId))) H2)
      (conj
        (proj2 (proj2 (proj2
           (C6_zero_evidence_zero_score Scenario.today db Scenario.bob skillId))) H3)
        (proj2 (proj1 (proj2
           (C6_zero_evidence_zero_score Scenario.today Scenario.dangling userId
              skillId)) H4)))))))).
Defined.

(** A reference that does not resolve is not zero evidence for
    [calculateChallengeScore]: the dereference throws.  The error is caught
    by [calculateSkillCredibility], which reports a zero total. *)
Example dangling_challenge_throws :
  calculateChallengeScore Scenario.today Scenario.dangling
    Scenario.alice Scenario.rocq
  = Thrown "Cannot read properties of null (reading 'skill')"
  /\ totalScore (calculateSkillCredibility Scenario.today Scenario.dangling
                   Scenario.alice Scenario.rocq) = 0%Z
  /\ error (calculateSkillCredibility Scenario.today Scenario.dangling
              Scenario.alice Scenario.rocq)
     = Some "Cannot read properties of null (reading 'skill')"%string.
Proof. repeat split. Qed.

End ZeroEvidence.

(** ** ChallengeEvidenceCalculator *)

Section ChallengeScore.

Lemma challengeLoop_skips_app now db skillId pre rest acc :
  Forall (forOtherSkill db skillId) pre ->
  challengeLoop now db skillId (pre ++ rest) acc
  = challengeLoop now db skillId rest acc.
Proof.
  induction 1 as [|s pre (c & Hc & Hne) _ IH]; simpl; [reflexivity|].
  rewrite Hc. apply N.eqb_neq in Hne. rewrite Hne. simpl. exact IH.
Qed.

Lemma challengeLoop_single now db skillId s post challenge acc :
  SubmissionModel.populateChallenge db s = Some challenge ->
  ch_skill challenge = skillId ->
  Forall (forOtherSkill db skillId) post ->
  challengeLoop now db skillId (s :: post) acc
  = let m := or_default (DIFFICULTY_MULTIPLIERS (ch_difficulty challenge)) 1 in
    Normal (fst acc + submissionScore now s m, snd acc + 100 * m).
Proof.
  intros Hc Hs Hpost. simpl. rewrite Hc.
  apply N.eqb_eq in Hs. rewrite Hs. simpl. destruct acc as [t m].
  rewrite (challengeLoop_skips _ _ _ _ _ Hpost). reflexivity.
Qed.

Lemma submissionScore_today now s m :
  sub_submittedAt s = now ->
  submissionScore now s m == (40 + sub_score s / 100 * 30) * m + 20.
Proof.
  intros Hat. unfold submissionScore, challenge_passed, challenge_score,
    challenge_recency, Math_max.
  rewrite Hat, daysBetween_same. rewrite Q.max_r by (vm_compute; discriminate).
  field.
Qed.

(** C4 (amended): with one verified, passed submission for the skill, of
    medium difficulty, scored 90 and submitted today,
    [calculateChallengeScore] returns
    [min(100, 100 * ((40 + 27) * 1.5 + 20 * 1) / 150)], which is [241/3],
    about 80.33: the cap of 100 is not reached. *)
Theorem C4_scenario_A now db userId skillId pre s post challenge :
  SubmissionModel.findVerifiedPassed db userId = pre ++ s :: post ->
  Forall (forOtherSkill db skillId) pre ->
  Forall (forOtherSkill db skillId) post ->
  SubmissionModel.populateChallenge db s = Some challenge ->
  ch_skill challenge = skillId ->
  ch_difficulty challenge = medium ->
  sub_score s == 90 ->
  sub_submittedAt s = now ->
  exists v,
    calculateChallengeScore now db userId skillId = Normal v
    /\ v == Qmin (100 * ((40 + 27) * (3 # 2) + 20 * 1) / 150) 100
    /\ v == 241 # 3
    /\ v < 100.
Proof.
  intros Hfind Hpre Hpost Hc Hskill Hdiff Hscore Hat.
  unfold calculateChallengeScore. rewrite Hfind.
  replace (Nat.eqb (length (pre ++ s :: post)) 0) with false
    by (symmetry; apply Nat.eqb_neq; rewrite length_app; simpl; lia).
  rewrite (challengeLoop_skips_app _ _ _ _ _ _ Hpre).
  rewrite (challengeLoop_single _ _ _ _ _ _ _ Hc Hskill Hpost).
  rewrite Hdiff. simpl.
  eexists. split; [reflexivity|].
  assert (Hv : Math_min
                 ((0 + submissionScore now s (3 # 2)) / (0 + 100 * (3 # 2)) * 100)
                 100 == 241 # 3).
  { unfold Math_min. rewrite (submissionScore_today _ _ _ Hat), Hscore.
    rewrite Q.min_l by (vm_compute; discriminate). reflexivity. }
  change (lt 0 (0 + 100 * (3 # 2))) with true. cbv iota.
  rewrite Hv. repeat split; vm_compute; congruence.
Qed.

Lemma C4_scenario_A_witness :
  exists v,
    calculateChallengeScore Scenario.today Scenario.scenarioA
      Scenario.alice Scenario.rocq = Normal v
    /\ v == 241 # 3.
Proof.
  destruct (C4_scenario_A Scenario.today Scenario.scenarioA Scenario.alice
              Scenario.rocq []
              (mkSubmission Scenario.alice (Some Scenario.kata) 90 true true
                 Scenario.today)
              [] (mkChallenge Scenario.rocq medium 70)
              eq_refl (List.Forall_nil _) (List.Forall_nil _) eq_refl eq_refl eq_refl
              (Qeq_refl _) eq_refl)
    as (v & Hv & _ & Heq & _).
  exists v. split; assumption.
Defined.

(** C4 as the design document words it: the score of scenario A would be
    about 100, the cap.  It is [241/3]. *)
Lemma C4_scenario_A_not_clamped :
  (exists v,
     calculateChallengeScore Scenario.today Scenario.scenarioA
       Scenario.alice Scenario.rocq = Normal v
     /\ v == 241 # 3)
  /\ ~ (exists v,
          calculateChallengeScore Scenario.today Scenario.scenarioA
            Scenario.alice Scenario.rocq = Normal v
          /\ 99 <= v).
Proof.
  split.
  - eexists. split; [vm_compute; reflexivity | vm_compute; reflexivity].
  - intros (v & Hv & Hle). vm_compute in Hv. injection Hv as <-.
    vm_compute in Hle. apply Hle. reflexivity.
Qed.

End ChallengeScore.

(** ** EndorsementEvidenceCalculator *)

Section EndorsementScore.

Lemma count_nil : count [] == 0.
Proof. reflexivity. Qed.

Lemma count_cons e es : count (e :: es) == count es + 1.
Proof.
  unfold count. simpl length. rewrite Nat2Z.inj_succ, <- Z.add_1_r.
  rewrite inject_Z_plus. reflexivity.
Qed.


Lemma count_nonneg es : 0 <= count es.
Proof.
  unfold count. change 0 with (inject_Z 0). rewrite <- Zle_Qle. lia.
Qed.

Lemma count_pos es : es <> [] -> 1 <= count es.
Proof.
  destruct es as [|e es]; [congruence|]. intros _.
  rewrite count_cons. pose proof (count_nonneg es). lra.
Qed.


Lemma endorsementLoop_insert e db es acc :
  endorsementLoop (EndorsementModel.insert e db) es acc = endorsementLoop db es acc.
Proof.
  revert acc. induction es as [|x es IH]; intros [tl tw]; simpl; [reflexivity|].
  unfold EndorsementModel.populateEndorser. simpl.
  destruct (users db !! en_endorser x); [apply IH | reflexivity].
Qed.








(** On binary64 numbers the amended property needs the condition on the
    product.  Ten expert endorsements of weight 0.86 by endorsers of
    credibility 72 score 88.57600000000001 and eleven score 88.576: the sum
    of the products 61.92 is rounded at every step. *)
Example binary64_score_drops_by_one_ulp :
  let endorsement := Binary64.mkEndorsement 4 72 (86 / 100) in
  PrimFloat.ltb
    (Binary64.calculateEndorsementScore (List.repeat endorsement 11))
    (Binary64.calculateEndorsementScore (List.repeat endorsement 10))
  = true
  /\ Binary64.neverDrops endorsement 11 = false.
Proof. vm_compute. split; reflexivity. Qed.

(** With the default weight 0.5 and with the weight 1 the score never drops
    on binary64 numbers either: for every level, every whole credibility
    from 0 to 100 and up to 60 endorsements. *)
Example binary64_score_never_drops_on_halves :
  List.forallb
    (fun weight =>
       List.forallb
         (fun levelValue =>
            List.forallb
              (fun credibility =>
                 Binary64.neverDrops
                   (Binary64.mkEndorsement levelValue (Binary64.ofNat credibility)
                      weight)
                   60)
              (List.seq 0 101))
         [1; 2; 3; 4]%float)
    [0.5; 1]%float
  = true.
Proof. vm_compute. reflexivity. Qed.

End EndorsementScore.

(** ** Bounds of the evidence scores *)

Section EvidenceBounds.

Lemma div_nonneg (a b : Q) : 0 <= a -> 0 < b -> 0 <= a / b.
Proof. intros Ha Hb. apply Qle_shift_div_l; [exact Hb | lra]. Qed.

Lemma Forall_filter {A} (P : A -> Prop) (f : A -> bool) (l : list A) :
  Forall P l -> Forall P (List.filter f l).
Proof.
  induction 1 as [|x l Hx _ IH]; simpl; [constructor|].
  destruct (f x); [constructor; assumption | assumption].
Qed.

Lemma multiplier_pos (d : Difficulty) :
  0 < or_default (DIFFICULTY_MULTIPLIERS d) 1.
Proof. destruct d; reflexivity. Qed.

Lemma levelValue_pos (l : Level) : 0 < or_default (LEVEL_VALUES l) 1.
Proof. destruct l; reflexivity. Qed.

Lemma submissionScore_nonneg now s m :
  0 <= sub_score s -> 0 < m -> 0 <= submissionScore now s m.
Proof.
  intros Hs Hm. unfold submissionScore, challenge_passed, challenge_score,
    challenge_recency, Math_max.
  set (r := Qmax 0 _). assert (Hr : 0 <= r) by apply Q.le_max_l.
  assert (H1 : 0 <= 40 + sub_score s / 100 * 30).
  { assert (E : 40 + sub_score s / 100 * 30 == 40 + sub_score s * (3 # 10))
      by field. rewrite E. lra. }
  assert (H2 : 0 <= (40 + sub_score s / 100 * 30) * m)
    by (apply Qmult_le_0_compat; lra).
  lra.
Qed.

Lemma challengeLoop_nonneg now db skillId subs :
  Forall (fun s => scoreInRange (sub_score s)) subs ->
  forall t m t' m',
    0 <= t -> 0 <= m ->
    challengeLoop now db skillId subs (t, m) = Normal (t', m') ->
    0 <= t' /\ 0 <= m'.
Proof.
  induction 1 as [|s subs [Hs _] _ IH]; intros t m t' m' Ht Hm; simpl.
  - intros [= <- <-]. split; assumption.
  - destruct (SubmissionModel.populateChallenge db s) as [c|]; [|discriminate].
    destruct (negb (N.eqb (ch_skill c) skillId)).
    + apply IH; assumption.
    + pose proof (multiplier_pos (ch_difficulty c)) as Hd.
      pose proof (submissionScore_nonneg now s _ Hs Hd).
      apply IH; lra.
Qed.

Lemma calculateChallengeScore_range now db userId skillId v :
  inRange db ->
  calculateChallengeScore now db userId skillId = Normal v ->
  scoreInRange v.
Proof.
  intros (Hsub & _ & _). unfold calculateChallengeScore.
  destruct (Nat.eqb _ 0).
  - intros [= <-]. split; lra.
  - destruct (challengeLoop _ _ _ _ _) as [[t m]|msg] eqn:E; simpl;
      [|discriminate].
    intros [= <-].
    destruct (challengeLoop_nonneg _ _ _ _
                (Forall_filter _ _ _ Hsub) _ _ _ _
                (Qle_refl 0) (Qle_refl 0) E) as [Ht Hm].
    destruct (lt 0 m) eqn:Em; [|split; lra].
    apply lt_spec in Em. split; [|apply min_le_r].
    apply min_glb; [|lra].
    pose proof (div_nonneg _ _ Ht Em). lra.
Qed.

Lemma endorsementLoop_nonneg db es :
  map_Forall (fun _ user => userInRange user) (users db) ->
  Forall (fun e => 0 <= en_weight e <= 1) es ->
  forall tl tw tl' tw',
    0 <= tl -> 0 <= tw ->
    endorsementLoop db es (tl, tw) = Normal (tl', tw') ->
    0 <= tl' /\ 0 <= tw'.
Proof.
  intros Hu. induction 1 as [|e es [Hw _] _ IH]; intros tl tw tl' tw' Htl Htw; simpl.
  - intros [= <- <-]. split; assumption.
  - unfold EndorsementModel.populateEndorser.
    destruct (users db !! en_endorser e) as [u|] eqn:Eu; [|discriminate].
    destruct (Hu _ _ Eu) as [[Hc _] _].
    pose proof (levelValue_pos (en_level e)).
    assert (0 <= or_default (u_credibilityScore u) 0 * en_weight e).
    { apply Qmult_le_0_compat; [rewrite or_default_zero|]; assumption. }
    apply IH; lra.
Qed.

Lemma calculateEndorsementScore_range db userId skillId v :
  inRange db ->
  calculateEndorsementScore db userId skillId = Normal v ->
  scoreInRange v.
Proof.
  intros (_ & Hen & Hu). unfold calculateEndorsementScore.
  set (es := EndorsementModel.findValid db userId skillId).
  destruct (Nat.eqb (length es) 0) eqn:En.
  - intros [= <-]. split; lra.
  - destruct (endorsementLoop db es (0, 0)) as [[tl tw]|msg] eqn:E; simpl;
      [|discriminate].
    intros [= <-].
    destruct (endorsementLoop_nonneg _ _ Hu
                (Forall_filter _ _ _ Hen) _ _ _ _
                (Qle_refl 0) (Qle_refl 0) E) as [Htl Htw].
    fold (count es).
    assert (Hn : 1 <= count es).
    { apply count_pos. intros Hnil. rewrite Hnil in En. discriminate. }
    split; [|apply min_le_r].
    unfold endorsement_level, endorsement_weight, endorsement_count.
    assert (H1 : 0 <= tl / (count es * 4)) by (apply div_nonneg; lra).
    assert (H2 : 0 <= tw / (count es * 100)) by (apply div_nonneg; lra).
    assert (H3 : 0 <= Math_min (count es * 2) 20) by (apply min_glb; lra).
    apply min_glb; lra.
Qed.

Lemma calculateProficiencyScore_range db userId skillId :
  inRange db ->
  scoreInRange (calculateProficiencyScore db userId skillId).
Proof.
  intros (_ & _ & Hu). unfold calculateProficiencyScore.
  destruct (users db !! userId) as [user|] eqn:Eu; [|split; lra].
  unfold UserModel.findSkill.
  destruct (List.find _ (u_skills user)) as [us|] eqn:Es; [|split; lra].
  destruct (Hu _ _ Eu) as [_ Hskills].
  apply List.find_some in Es. destruct Es as [Hin _].
  rewrite List.Forall_forall in Hskills.
  destruct (Hskills _ Hin) as [[Hl _] Hy].
  unfold proficiency_base, proficiency_level, proficiency_experience.
  split; [|apply min_le_r].
  apply min_glb; [|lra].
  set (y := Math_min (us_yearsOfExperience us) 10).
  assert (Hmin : 0 <= y) by (apply min_glb; lra).
  assert (E : 25 + us_proficiencyLevel us / 10 * 50 + y / 10 * 25
              == 25 + us_proficiencyLevel us * 5 + y * (5 # 2)) by field.
  rewrite E. lra.
Qed.

Lemma calculateTimeDecay_range now db userId skillId :
  1 # 2 <= calculateTimeDecay now db userId skillId <= 1.
Proof.
  unfold calculateTimeDecay.
  destruct (users db !! userId) as [user|]; [|split; lra].
  destruct (UserModel.findSkill user skillId) as [us|]; [|split; lra].
  split; [apply decayAfter_lower | apply decayAfter_upper].
Qed.

(** The result of [calculateSkillCredibility], component by component. *)
Lemma calculateSkillCredibility_range now db userId skillId :
  inRange db ->
  let result := calculateSkillCredibility now db userId skillId in
  (0 <= totalScore result <= 100)%Z
  /\ scoreInRange (challengeScore (breakdown result))
  /\ scoreInRange (endorsementScore (breakdown result))
  /\ scoreInRange (proficiencyScore (breakdown result))
  /\ 1 # 2 <= decayFactor (breakdown result) <= 1.
Proof.
  intros Hdb. unfold calculateSkillCredibility.
  destruct (calculateChallengeScore now db userId skillId) as [c|msg] eqn:Ec;
    simpl; [|repeat split; (lia || lra)].
  destruct (calculateEndorsementScore db userId skillId) as [e|msg] eqn:Ee;
    simpl; [|repeat split; (lia || lra)].
  pose proof (calculateChallengeScore_range _ _ _ _ _ Hdb Ec) as Hc.
  pose proof (calculateEndorsementScore_range _ _ _ _ Hdb Ee) as He.
  pose proof (calculateProficiencyScore_range db userId skillId Hdb) as Hp.
  pose proof (calculateTimeDecay_range now db userId skillId) as Hd.
  repeat split; try apply Hc; try apply He; try apply Hp; try apply Hd.
  - apply Z.min_glb; [|lia]. apply Math_round_nonneg.
    apply Qmult_le_0_compat; [|lra].
    destruct Hc, He, Hp. lra.
  - apply Z.le_min_r.
Qed.

End EvidenceBounds.

(** ** The overall credibility score *)

Section Overall.

Lemma inject_Z_range (z : Z) : (0 <= z <= 100)%Z -> scoreInRange (inject_Z z).
Proof.
  intros [H0 H1]. split.
  - change 0 with (inject_Z 0). rewrite <- Zle_Qle. exact H0.
  - change 100 with (inject_Z 100). rewrite <- Zle_Qle. exact H1.
Qed.

Lemma weighSkills_sums skills tw ws :
  fst (UserModel.weighSkills skills (tw, ws))
  == tw + Design.sumQ (List.map UserModel.skillWeight skills)
  /\ snd (UserModel.weighSkills skills (tw, ws))
     == ws + Design.sumQ
               (List.map (fun s => us_credibilityScore s * UserModel.skillWeight s)
                  skills).
Proof.
  revert tw ws. induction skills as [|s skills IH]; intros tw ws; simpl.
  - split; ring.
  - destruct (IH (tw + UserModel.skillWeight s)
                 (ws + us_credibilityScore s * UserModel.skillWeight s))
      as [H1 H2].
    rewrite H1, H2. split; ring.
Qed.

Lemma overallLoop_sums skills tw ws :
  fst (overallLoop skills (tw, ws))
  == tw + Design.sumQ (List.map Design.weight skills)
  /\ snd (overallLoop skills (tw, ws))
     == ws + Design.sumQ
               (List.map (fun s => us_credibilityScore s * Design.weight s) skills).
Proof.
  revert tw ws. induction skills as [|s skills IH]; intros tw ws; simpl.
  - split; ring.
  - destruct (IH (tw + overallWeight s)
                 (ws + us_credibilityScore s * overallWeight s))
      as [H1 H2].
    rewrite H1, H2. unfold overallWeight, Design.weight. split; ring.
Qed.

(** What [updateCredibilityScore] stores: the average weighted by
    [proficiencyLevel * yearsOfExperience + 1]. *)
Lemma updateCredibilityScore_average (this : User) :
  u_skills (UserModel.updateCredibilityScore this) = u_skills this
  /\ u_credibilityScore (UserModel.updateCredibilityScore this)
     = inject_Z (Design.weightedAverage UserModel.skillWeight (u_skills this)).
Proof.
  unfold UserModel.updateCredibilityScore, Design.weightedAverage.
  destruct (u_skills this) as [|s skills] eqn:E; [split; reflexivity|].
  destruct (weighSkills_sums (s :: skills) 0 0) as [H1 H2].
  destruct (UserModel.weighSkills (s :: skills) (0, 0)) as [tw ws].
  simpl fst in H1. simpl snd in H2. simpl u_skills. simpl u_credibilityScore.
  split; [reflexivity|]. f_equal. apply Math_round_comp.
  rewrite H1, H2, !Qplus_0_l. reflexivity.
Qed.

(** What [calculateOverallCredibility] returns: the average weighted by
    [proficiencyLevel * (yearsOfExperience + 1)]. *)
Lemma calculateOverallCredibility_average db userId user :
  users db !! userId = Some user ->
  calculateOverallCredibility db userId = Design.overall (u_skills user).
Proof.
  intros Hu. unfold calculateOverallCredibility, Design.overall,
    Design.weightedAverage. rewrite Hu.
  destruct (u_skills user) as [|s skills] eqn:E; [reflexivity|].
  simpl Nat.eqb. cbv iota.
  destruct (overallLoop_sums (s :: skills) 0 0) as [H1 H2].
  destruct (overallLoop (s :: skills) (0, 0)) as [tw ws].
  simpl fst in H1. simpl snd in H2.
  apply Math_round_comp. rewrite H1, H2, !Qplus_0_l. reflexivity.
Qed.

Lemma weighted_sums_bound (w : UserSkill -> Q) skills :
  Forall (fun s => scoreInRange (us_credibilityScore s) /\ 0 < w s) skills ->
  0 <= Design.sumQ (List.map w skills)
  /\ 0 <= Design.sumQ (List.map (fun s => us_credibilityScore s * w s) skills)
  /\ Design.sumQ (List.map (fun s => us_credibilityScore s * w s) skills)
     <= 100 * Design.sumQ (List.map w skills)
  /\ (skills <> [] -> 0 < Design.sumQ (List.map w skills)).
Proof.
  induction 1 as [|s skills [[Hc0 Hc1] Hw] _ (IH1 & IH2 & IH3 & _)]; simpl.
  - repeat split; try lra. congruence.
  - assert (0 <= us_credibilityScore s * w s)
      by (apply Qmult_le_0_compat; lra).
    assert (us_credibilityScore s * w s <= 100 * w s)
      by (apply Qmult_le_compat_r; lra).
    repeat split; try lra.
Qed.

Lemma weightedAverage_range (w : UserSkill -> Q) skills :
  Forall (fun s => scoreInRange (us_credibilityScore s) /\ 0 < w s) skills ->
  (0 <= Design.weightedAverage w skills <= 100)%Z.
Proof.
  intros H. unfold Design.weightedAverage.
  destruct skills as [|s skills]; [lia|].
  destruct (weighted_sums_bound w _ H) as (_ & H2 & H3 & H4).
  assert (Hpos := H4 ltac:(discriminate)).
  split.
  - apply Math_round_nonneg. apply div_nonneg; assumption.
  - apply Math_round_le_100. apply Qle_shift_div_r; assumption.
Qed.

Lemma skillWeight_pos s : skillInRange s -> 0 < UserModel.skillWeight s.
Proof.
  intros [[Hl _] Hy]. unfold UserModel.skillWeight.
  assert (0 <= us_proficiencyLevel s * us_yearsOfExperience s)
    by (apply Qmult_le_0_compat; lra).
  lra.
Qed.

Lemma overallWeight_pos s : skillInRange s -> 0 < Design.weight s.
Proof.
  intros [[Hl _] Hy]. unfold Design.weight.
  apply Qmult_lt_0_compat; lra.
Qed.

Lemma rescoreSkill_range now db userId s :
  inRange db -> skillInRange s ->
  let s' := rescoreSkill now db userId s in
  scoreInRange (us_credibilityScore s') /\ skillInRange s'.
Proof.
  intros Hdb Hs. simpl. split; [|exact Hs].
  apply inject_Z_range.
  apply (calculateSkillCredibility_range now db userId (us_skill s) Hdb).
Qed.

(** The person document written by [updateAllSkillScores]. *)
Lemma updateAllSkillScores_user now db userId user :
  users db !! userId = Some user ->
  users (updateAllSkillScores now db userId) !! userId
  = Some (UserModel.updateCredibilityScore
            (mkUser (List.map (rescoreSkill now db userId) (u_skills user))
               (u_credibilityScore user))).
Proof.
  intros Hu. unfold updateAllSkillScores. rewrite Hu.
  unfold UserModel.save. simpl. apply lookup_insert_eq.
Qed.

Lemma updateAllSkillScores_range now db userId user' :
  inRange db ->
  users (updateAllSkillScores now db userId) !! userId = Some user' ->
  scoreInRange (u_credibilityScore user')
  /\ Forall (fun s => scoreInRange (us_credibilityScore s) /\ skillInRange s)
       (u_skills user').
Proof.
  intros Hdb Hu'.
  destruct (users db !! userId) as [user|] eqn:Hu.
  - rewrite (updateAllSkillScores_user _ _ _ _ Hu) in Hu'.
    injection Hu' as <-.
    destruct (updateCredibilityScore_average
                (mkUser (List.map (rescoreSkill now db userId) (u_skills user))
                   (u_credibilityScore user))) as [Hs Hc].
    rewrite Hs, Hc. simpl u_skills.
    destruct Hdb as (H1 & H2 & H3).
    destruct (H3 _ _ Hu) as [_ Hskills].
    assert (Hall : Forall (fun s => scoreInRange (us_credibilityScore s)
                                    /\ skillInRange s)
                     (List.map (rescoreSkill now db userId) (u_skills user))).
    { rewrite List.Forall_map. eapply List.Forall_impl; [|exact Hskills].
      intros s Hs'. apply rescoreSkill_range; [|exact Hs'].
      exact (conj H1 (conj H2 H3)). }
    split; [|exact Hall].
    apply inject_Z_range, weightedAverage_range.
    eapply List.Forall_impl; [|exact Hall].
    intros s [Hc' Hs']. split; [exact Hc' | apply skillWeight_pos, Hs'].
  - unfold updateAllSkillScores in Hu'. rewrite Hu in Hu'. congruence.
Qed.

End Overall.

(** ** Every score lies in [[0,100]] *)

Section ScoreInvariant.


(** With years of experience up to [maxYears] the total weight of either
    average is at most [10^22 + 10] per skill; the weighted sum is at most
    100 times the total weight ([weighted_sums_between] below).  Both stay
    finite on binary64 numbers for fewer than [10^280] skills. *)
Lemma weights_bounded skills :
  Forall (fun s => skillInRange s /\ us_yearsOfExperience s <= maxYears) skills ->
  Design.sumQ (List.map Design.weight skills)
  <= inject_Z (Z.of_nat (length skills)) * (10 * (maxYears + 1))
  /\ Design.sumQ (List.map UserModel.skillWeight skills)
     <= inject_Z (Z.of_nat (length skills)) * (10 * (maxYears + 1)).
Proof.
  induction 1 as [|s skills [[[Hl0 Hl1] Hy0] Hy1] _ [IH1 IH2]].
  - split; vm_compute; discriminate.
  - change (Design.sumQ (List.map Design.weight (s :: skills)))
      with (Design.weight s + Design.sumQ (List.map Design.weight skills)).
    change (Design.sumQ (List.map UserModel.skillWeight (s :: skills)))
      with (UserModel.skillWeight s
            + Design.sumQ (List.map UserModel.skillWeight skills)).
    cbn [length]. rewrite Nat2Z.inj_succ, <- Z.add_1_r, inject_Z_plus.
    change (inject_Z 1) with 1.
    set (S1 := Design.sumQ (List.map Design.weight skills)) in *.
    set (S2 := Design.sumQ (List.map UserModel.skillWeight skills)) in *.
    set (n := inject_Z (Z.of_nat (length skills))) in *.
    unfold Design.weight, UserModel.skillWeight.
    set (l := us_proficiencyLevel s) in *. set (y := us_yearsOfExperience s) in *.
    assert (Hm : 0 < maxYears) by reflexivity.
    assert (H1 : l * (y + 1) <= 10 * (maxYears + 1)).
    { apply Qle_trans with (10 * (y + 1)).
      - apply Qmult_le_compat_r; lra.
      - rewrite !(Qmult_comm 10). apply Qmult_le_compat_r; lra. }
    assert (E : l * (y + 1) == l * y + l) by ring.
    set (K := 10 * (maxYears + 1)) in *. clearbody K S1 S2. split; lra.
Qed.


(** At the bound [maxYears] the same skill gives its own score. *)
Example overall_at_maxYears :
  let userSkill := Binary64.mkUserSkill 10 1e21 25 in
  Binary64.calculateOverallCredibility (Some [userSkill]) = 25%float
  /\ Binary64.updateCredibilityScore [userSkill] = 25%float.
Proof. vm_compute. split; reflexivity. Qed.


Lemma full_inRange : inRange Scenario.full.
Proof.
  split; [|split].
  - repeat constructor; discriminate.
  - repeat constructor; discriminate.
  - intros i u H. unfold Scenario.full in H. simpl in H.
    rewrite lookup_insert_Some in H. destruct H as [[_ <-]|[_ H]].
    + split; [split; discriminate|].
      repeat constructor; discriminate.
    + rewrite lookup_singleton_Some in H. destruct H as [_ <-].
      split; [split; discriminate | constructor].
Qed.



(** Scenarios B and C of the design document, and the total they give
    together with scenario A: [round(80.33*0.4 + 73.6*0.35 + 57.5*0.25)]. *)
Example full_scores :
  let result := calculateSkillCredibility Scenario.today Scenario.full
                  Scenario.alice Scenario.rocq in
  endorsementScore (breakdown result) == 736 # 10
  /\ proficiencyScore (breakdown result) == 575 # 10
  /\ totalScore result = 72%Z
  /\ isVerified result = true.
Proof. vm_compute. repeat split. Qed.

End ScoreInvariant.

(** ** The two weightings of the overall score *)

Section Weightings.

Lemma updateAllSkillScores_overall now db userId user :
  users db !! userId = Some user ->
  exists user',
    users (updateAllSkillScores now db userId) !! userId = Some user'
    /\ u_skills user' = List.map (rescoreSkill now db userId) (u_skills user)
    /\ u_credibilityScore user'
       = inject_Z (Design.weightedAverage UserModel.skillWeight (u_skills user')).
Proof.
  intros Hu. eexists. split; [apply updateAllSkillScores_user, Hu|].
  destruct (updateCredibilityScore_average
              (mkUser (List.map (rescoreSkill now db userId) (u_skills user))
                 (u_credibilityScore user))) as [Hs Hc].
  split; [exact Hs|]. rewrite Hc, Hs. reflexivity.
Qed.

Lemma updateAllSkillScores_no_skills now db userId user :
  users db !! userId = Some user -> u_skills user = [] ->
  u_credibilityScore <$> users (updateAllSkillScores now db userId) !! userId
  = Some 0.
Proof.
  intros Hu Hs. rewrite (updateAllSkillScores_user _ _ _ _ Hu), Hs. reflexivity.
Qed.

Lemma sumQ_map_ext {A} (f g : A -> Q) (l : list A) :
  Forall (fun x => f x == g x) l ->
  Design.sumQ (List.map f l) == Design.sumQ (List.map g l).
Proof.
  induction 1 as [|x l Hx _ IH]; simpl; [reflexivity|]. rewrite Hx, IH. reflexivity.
Qed.

(** The two weights coincide on skills of proficiency level 1, and so do
    the two averages. *)
Lemma weightings_agree_at_level_1 skills :
  Forall (fun s => us_proficiencyLevel s == 1) skills ->
  Design.weightedAverage UserModel.skillWeight skills = Design.overall skills.
Proof.
  intros H. unfold Design.overall, Design.weightedAverage.
  destruct skills as [|s skills]; [reflexivity|].
  assert (Hw : Forall (fun x => UserModel.skillWeight x == Design.weight x)
                 (s :: skills)).
  { eapply List.Forall_impl; [|exact H]. intros x Hx.
    unfold UserModel.skillWeight, Design.weight. rewrite Hx. ring. }
  apply Math_round_comp.
  rewrite (sumQ_map_ext _ _ _ Hw).
  rewrite (sumQ_map_ext
             (fun x => us_credibilityScore x * UserModel.skillWeight x)
             (fun x => us_credibilityScore x * Design.weight x)).
  - reflexivity.
  - eapply List.Forall_impl; [|exact Hw]. intros x Hx. simpl in Hx.
    rewrite Hx. reflexivity.
Qed.

(** C2: after [updateAllSkillScores] the stored overall score should be
    [round(sum(score * weight) / sum(weight))] with
    [weight = proficiencyLevel * (yearsOfExperience + 1)].  For two skills
    of levels 10 and 1 (scores 19 and 8) that is 18; the stored score is
    14, the average under [proficiencyLevel * yearsOfExperience + 1]. *)
Theorem C2_persisted_overall_diverges :
  exists user',
    users (updateAllSkillScores Scenario.today Scenario.twoSkills Scenario.alice)
      !! Scenario.alice = Some user'
    /\ List.map us_credibilityScore (u_skills user') = [19; 8]
    /\ Design.overall (u_skills user') = 18%Z
    /\ u_credibilityScore user' = 14
    /\ Design.weightedAverage UserModel.skillWeight (u_skills user') = 14%Z.
Proof.
  eexists. split; [vm_compute; reflexivity|]. repeat split.
Qed.

(** C8: [calculateOverallCredibility] and the score stored through
    [User.updateCredibilityScore] should agree on the same skills.  On the
    store written by [updateAllSkillScores] for the two-skill person the
    function returns 18 while the stored score is 14. *)
Theorem C8_overall_implementations_differ :
  let db := updateAllSkillScores Scenario.today Scenario.twoSkills Scenario.alice in
  calculateOverallCredibility db Scenario.alice = 18%Z
  /\ u_credibilityScore <$> users db !! Scenario.alice = Some 14
  /\ u_credibilityScore
       <$> users (updateAllSkillScores Scenario.today db Scenario.alice)
           !! Scenario.alice = Some 14.
Proof. vm_compute. repeat split. Qed.

End Weightings.

(** ** Recomputing twice *)

Section Recompute.

Variable now : Date.
Variable db : DB.
Variable userId : ObjectId.
Variable user : User.
Hypothesis Huser : users db !! userId = Some user.

(** The person document after the first recomputation, and the store. *)
Local Abbreviation skills1 := (List.map (rescoreSkill now db userId) (u_skills user)).
Local Abbreviation user1 := (rescoreUser now db userId user).
Local Abbreviation db1 := (UserModel.save userId user1 db).

Lemma updateAllSkillScores_unfold : updateAllSkillScores now db userId = db1.
Proof. unfold updateAllSkillScores. rewrite Huser. reflexivity. Qed.

Lemma user1_skills : u_skills user1 = skills1.
Proof. apply updateCredibilityScore_average. Qed.

Lemma challengeLoop_saved skillId subs acc :
  challengeLoop now db1 skillId subs acc = challengeLoop now db skillId subs acc.
Proof.
  revert acc. induction subs as [|s subs IH]; intros acc; simpl; [reflexivity|].
  change (SubmissionModel.populateChallenge db1 s)
    with (SubmissionModel.populateChallenge db s).
  destruct (SubmissionModel.populateChallenge db s) as [c|]; [|reflexivity].
  destruct (negb (N.eqb (ch_skill c) skillId)); [apply IH|].
  destruct acc as [t m]. apply IH.
Qed.

Lemma calculateChallengeScore_saved skillId :
  calculateChallengeScore now db1 userId skillId
  = calculateChallengeScore now db userId skillId.
Proof.
  unfold calculateChallengeScore.
  change (SubmissionModel.findVerifiedPassed db1 userId)
    with (SubmissionModel.findVerifiedPassed db userId).
  rewrite challengeLoop_saved. reflexivity.
Qed.

Lemma endorsementLoop_saved es acc :
  Forall (fun e => en_endorser e <> userId) es ->
  endorsementLoop db1 es acc = endorsementLoop db es acc.
Proof.
  intros H. revert acc.
  induction H as [|e es He _ IH]; intros [tl tw]; simpl; [reflexivity|].
  unfold EndorsementModel.populateEndorser, UserModel.save. simpl.
  rewrite lookup_insert_ne by congruence.
  destruct (users db !! en_endorser e); [apply IH | reflexivity].
Qed.

Lemma findValid_not_self skillId :
  noSelfEndorsement db userId ->
  Forall (fun e => en_endorser e <> userId)
    (EndorsementModel.findValid db userId skillId).
Proof.
  unfold noSelfEndorsement, EndorsementModel.findValid.
  induction 1 as [|e es He _ IH]; simpl; [constructor|].
  destruct (N.eqb (en_recipient e) userId) eqn:Er; simpl; [|exact IH].
  destruct (N.eqb (en_skill e) skillId); simpl; [|exact IH].
  destruct (en_isValid e) eqn:Ev; simpl; [|exact IH].
  constructor; [|exact IH]. apply He; [apply N.eqb_eq, Er | reflexivity].
Qed.

Lemma calculateEndorsementScore_saved skillId :
  noSelfEndorsement db userId ->
  calculateEndorsementScore db1 userId skillId
  = calculateEndorsementScore db userId skillId.
Proof.
  intros H. unfold calculateEndorsementScore.
  change (EndorsementModel.findValid db1 userId skillId)
    with (EndorsementModel.findValid db userId skillId).
  rewrite (endorsementLoop_saved _ _ (findValid_not_self skillId H)).
  reflexivity.
Qed.

Lemma findSkill_rescored skillId :
  UserModel.findSkill user1 skillId
  = rescoreSkill now db userId <$> UserModel.findSkill user skillId.
Proof.
  unfold UserModel.findSkill. rewrite user1_skills.
  induction (u_skills user) as [|s l IH]; simpl; [reflexivity|].
  destruct (N.eqb (us_skill s) skillId); [reflexivity | exact IH].
Qed.

Lemma lookup_user1 : users db1 !! userId = Some user1.
Proof. unfold UserModel.save. simpl. apply lookup_insert_eq. Qed.

Lemma calculateProficiencyScore_saved skillId :
  calculateProficiencyScore db1 userId skillId
  = calculateProficiencyScore db userId skillId.
Proof.
  unfold calculateProficiencyScore.
  rewrite lookup_user1, Huser, findSkill_rescored.
  destruct (UserModel.findSkill user skillId); reflexivity.
Qed.

Lemma decayAfter_now : decayAfter (daysBetween now now) = 1.
Proof. unfold daysBetween. rewrite Z.sub_diag. reflexivity. Qed.

Lemma calculateTimeDecay_saved skillId :
  recentlyUpdated now db userId ->
  calculateTimeDecay now db1 userId skillId
  = calculateTimeDecay now db userId skillId.
Proof.
  intros Hrecent. unfold calculateTimeDecay.
  rewrite lookup_user1, Huser, findSkill_rescored.
  destruct (UserModel.findSkill user skillId) as [s|] eqn:Es; [|reflexivity].
  simpl. rewrite decayAfter_now. symmetry. apply decayAfter_fresh.
  apply List.find_some in Es. destruct Es as [Hin _].
  pose proof (Hrecent _ Huser) as Hall.
  rewrite List.Forall_forall in Hall. apply Hall, Hin.
Qed.

Lemma calculateSkillCredibility_saved skillId :
  recentlyUpdated now db userId -> noSelfEndorsement db userId ->
  calculateSkillCredibility now db1 userId skillId
  = calculateSkillCredibility now db userId skillId.
Proof.
  intros Hrecent Hself. unfold calculateSkillCredibility.
  rewrite calculateChallengeScore_saved, (calculateEndorsementScore_saved _ Hself).
  destruct (calculateChallengeScore now db userId skillId) as [c|]; [|reflexivity].
  destruct (calculateEndorsementScore db userId skillId) as [e|]; [|reflexivity].
  simpl.
  rewrite calculateProficiencyScore_saved, (calculateTimeDecay_saved _ Hrecent).
  reflexivity.
Qed.

Lemma rescoreSkill_twice s :
  recentlyUpdated now db userId -> noSelfEndorsement db userId ->
  rescoreSkill now db1 userId (rescoreSkill now db userId s)
  = rescoreSkill now db userId s.
Proof.
  intros Hrecent Hself. unfold rescoreSkill at 1. simpl.
  rewrite (calculateSkillCredibility_saved _ Hrecent Hself). reflexivity.
Qed.

Lemma updateCredibilityScore_forgets skills c c' :
  UserModel.updateCredibilityScore (mkUser skills c)
  = UserModel.updateCredibilityScore (mkUser skills c').
Proof.
  unfold UserModel.updateCredibilityScore. simpl.
  destruct skills; reflexivity.
Qed.

Lemma updateAllSkillScores_twice :
  recentlyUpdated now db userId -> noSelfEndorsement db userId ->
  updateAllSkillScores now (updateAllSkillScores now db userId) userId
  = updateAllSkillScores now db userId.
Proof.
  intros Hrecent Hself. rewrite updateAllSkillScores_unfold.
  unfold updateAllSkillScores. rewrite lookup_user1.
  assert (E : List.map (rescoreSkill now db1 userId) skills1 = skills1).
  { rewrite List.map_map. apply List.map_ext.
    intros s. apply rescoreSkill_twice; assumption. }
  unfold rescoreUser at 1. rewrite user1_skills, E.
  rewrite (updateCredibilityScore_forgets skills1 _ (u_credibilityScore user)).
  fold user1. unfold UserModel.save. simpl. f_equal.
  apply insert_insert_eq.
Qed.

End Recompute.

Section Idempotence.

(** C3 (amended): at a fixed clock, when every skill record of the person
    was touched less than 90 days ago and the person holds no valid
    endorsement given by themself, a second [updateAllSkillScores] right
    after the first leaves the store as the first left it: the per-skill
    scores and the overall score are identical. *)
Theorem C3_recompute_twice now db userId :
  recentlyUpdated now db userId ->
  noSelfEndorsement db userId ->
  let once := updateAllSkillScores now db userId in
  let twice := updateAllSkillScores now once userId in
  twice = once /\ storedScores twice userId = storedScores once userId.
Proof.
  intros Hrecent Hself once twice.
  assert (E : twice = once).
  { unfold twice, once. destruct (users db !! userId) as [user|] eqn:Hu.
    - apply (updateAllSkillScores_twice now db userId user Hu Hrecent Hself).
    - unfold updateAllSkillScores. rewrite Hu, Hu. reflexivity. }
  split; [exact E | rewrite E; reflexivity].
Qed.

Lemma full_recentlyUpdated :
  recentlyUpdated Scenario.today Scenario.full Scenario.alice.
Proof.
  intros user Hu. vm_compute in Hu. injection Hu as <-.
  repeat constructor.
Qed.

Lemma full_noSelfEndorsement : noSelfEndorsement Scenario.full Scenario.alice.
Proof. repeat constructor. intros _ _. discriminate. Qed.

Lemma C3_recompute_twice_witness :
  recentlyUpdated Scenario.today Scenario.full Scenario.alice
  /\ noSelfEndorsement Scenario.full Scenario.alice
  /\ storedScores
       (updateAllSkillScores Scenario.today
          (updateAllSkillScores Scenario.today Scenario.full Scenario.alice)
          Scenario.alice) Scenario.alice
     = storedScores
         (updateAllSkillScores Scenario.today Scenario.full Scenario.alice)
         Scenario.alice.
Proof.
  split; [exact full_recentlyUpdated|]. split; [exact full_noSelfEndorsement|].
  exact (proj2 (C3_recompute_twice Scenario.today Scenario.full Scenario.alice
                  full_recentlyUpdated full_noSelfEndorsement)).
Defined.

(** C3 as worded: a skill last touched 400 days ago and no evidence but the
    declared proficiency.  The first recomputation applies the decay
    (score 14) and resets [lastUpdated]; the second, at the same clock and
    on the same evidence, applies none (score 25). *)
Lemma C3_stale_skill_scores_differ :
  let once := updateAllSkillScores Scenario.today Scenario.stale Scenario.alice in
  let twice := updateAllSkillScores Scenario.today once Scenario.alice in
  storedScores once Scenario.alice = Some ([14], 14)
  /\ storedScores twice Scenario.alice = Some ([25], 25)
  /\ storedScores twice Scenario.alice <> storedScores once Scenario.alice.
Proof.
  vm_compute. repeat split. discriminate.
Qed.

(** A valid endorsement of oneself breaks the agreement as well: the second
    recomputation reads the overall score the first one wrote. *)
Example self_endorsement_scores_differ :
  let db := mkDB {[ Scenario.alice :=
                      mkUser [mkUserSkill Scenario.rocq 10 10 false 0 Scenario.today] 0 ]}
              ∅ []
              [mkEndorsement Scenario.alice Scenario.alice Scenario.rocq
                 level_expert 1 true] in
  let once := updateAllSkillScores Scenario.today db Scenario.alice in
  let twice := updateAllSkillScores Scenario.today once Scenario.alice in
  recentlyUpdated Scenario.today db Scenario.alice
  /\ storedScores twice Scenario.alice <> storedScores once Scenario.alice.
Proof.
  split.
  - intros user Hu. vm_compute in Hu. injection Hu as <-. repeat constructor.
  - vm_compute. discriminate.
Qed.

End Idempotence.

(** ** Further properties of the challenge score *)

Section ChallengeEvidence.

Lemma multiplier_ge_1 (d : Difficulty) :
  1 <= or_default (DIFFICULTY_MULTIPLIERS d) 1.
Proof. destruct d; discriminate. Qed.

Lemma submissionScore_lower now s m :
  0 <= sub_score s -> 0 < m -> 40 * m <= submissionScore now s m.
Proof.
  intros Hs Hm. unfold submissionScore, challenge_passed, challenge_score,
    challenge_recency, Math_max.
  set (r := Qmax 0 _). assert (Hr : 0 <= r) by apply Q.le_max_l.
  assert (H : 0 <= sub_score s * m) by (apply Qmult_le_0_compat; lra).
  assert (E : (40 + sub_score s / 100 * 30) * m + r * 20
              == 40 * m + (3 # 10) * (sub_score s * m) + 20 * r) by field.
  rewrite E. lra.
Qed.

Lemma recency_le_1 now s :
  (sub_submittedAt s <= now)%Z ->
  Qmax 0 (1 - daysBetween now (sub_submittedAt s) / 365) <= 1.
Proof.
  intros H. apply Q.max_lub; [lra|].
  assert (Hd : 0 <= daysBetween now (sub_submittedAt s)).
  { unfold daysBetween. apply div_nonneg; [|reflexivity].
    change 0 with (inject_Z 0). rewrite <- Zle_Qle. lia. }
  assert (0 <= daysBetween now (sub_submittedAt s) / 365)
    by (apply div_nonneg; [exact Hd | reflexivity]).
  lra.
Qed.

Lemma submissionScore_upper now s m :
  sub_score s <= 100 -> 1 <= m -> (sub_submittedAt s <= now)%Z ->
  submissionScore now s m <= 90 * m.
Proof.
  intros Hs Hm Hat. unfold submissionScore, challenge_passed, challenge_score,
    challenge_recency, Math_max.
  pose proof (recency_le_1 now s Hat) as Hr. set (r := Qmax 0 _) in *.
  assert (H : sub_score s * m <= 100 * m) by (apply Qmult_le_compat_r; lra).
  assert (E : (40 + sub_score s / 100 * 30) * m + r * 20
              == 40 * m + (3 # 10) * (sub_score s * m) + 20 * r) by field.
  rewrite E. lra.
Qed.

(** The loop keeps [40% * maxPossibleScore <= totalScore], and
    [maxPossibleScore] grows with every submission it counts. *)
Lemma challengeLoop_floor now db skillId subs :
  Forall (fun s => scoreInRange (sub_score s)) subs ->
  forall t m t' m',
    (2 # 5) * m <= t ->
    challengeLoop now db skillId subs (t, m) = Normal (t', m') ->
    (2 # 5) * m' <= t'
    /\ m <= m'
    /\ (Exists (forThisSkill db skillId) subs -> m < m').
Proof.
  induction 1 as [|s subs [Hs _] _ IH]; intros t m t' m' Hinv; simpl.
  - intros [= <- <-]. repeat split; [exact Hinv | lra |].
    intros Hex. inversion Hex.
  - destruct (SubmissionModel.populateChallenge db s) as [c|] eqn:Ec;
      [|discriminate].
    destruct (N.eqb (ch_skill c) skillId) eqn:Eskill; simpl.
    + pose proof (multiplier_pos (ch_difficulty c)) as Hd.
      pose proof (submissionScore_lower now s _ Hs Hd) as Hlow.
      intros Hloop. apply IH in Hloop; [|lra].
      destruct Hloop as (H1 & H2 & _). repeat split; [exact H1 | lra | lra].
    + intros Hloop. apply IH in Hloop; [|exact Hinv].
      destruct Hloop as (H1 & H2 & H3). repeat split; [exact H1 | exact H2 |].
      intros Hex. inversion Hex as [? ? (c' & Hc' & Hs') | ? ? Hrest]; subst.
      * rewrite Ec in Hc'. injection Hc' as <-.
        apply N.eqb_neq in Eskill. contradiction.
      * apply H3, Hrest.
Qed.

Lemma challengeLoop_ceiling now db skillId subs :
  Forall (fun s => scoreInRange (sub_score s) /\ (sub_submittedAt s <= now)%Z) subs ->
  forall t m t' m',
    t <= (9 # 10) * m ->
    challengeLoop now db skillId subs (t, m) = Normal (t', m') ->
    t' <= (9 # 10) * m'.
Proof.
  induction 1 as [|s subs [[_ Hs] Hat] _ IH]; intros t m t' m' Hinv; simpl.
  - intros [= <- <-]. exact Hinv.
  - destruct (SubmissionModel.populateChallenge db s) as [c|]; [|discriminate].
    destruct (negb (N.eqb (ch_skill c) skillId)).
    + apply IH, Hinv.
    + pose proof (multiplier_ge_1 (ch_difficulty c)) as Hd.
      pose proof (submissionScore_upper now s _ Hs Hd Hat).
      apply IH. lra.
Qed.

Lemma existsb_filter {A} (P : A -> Prop) (f : A -> bool) (l : list A) :
  Exists P (List.filter f l) -> Exists P l.
Proof.
  induction l as [|x l IH]; simpl; [trivial|].
  destruct (f x).
  - intros H. inversion H; subst; [left; assumption | right; auto].
  - intros H. right. auto.
Qed.

Lemma Forall_and_filter {A} (P Q' : A -> Prop) (f : A -> bool) (l : list A) :
  Forall P l -> Forall Q' l -> Forall (fun x => P x /\ Q' x) (List.filter f l).
Proof.
  intros HP HQ. apply Forall_filter.
  induction HP as [|x l Hx _ IH]; [constructor|].
  inversion HQ; subst. constructor; [split; assumption | apply IH; assumption].
Qed.

Lemma ratio_floor (t m : Q) :
  0 < m -> (2 # 5) * m <= t -> 40 <= Math_min (t / m * 100) 100.
Proof.
  intros Hlt Hfloor. apply min_glb; [|lra].
  assert (2 # 5 <= t / m) by (apply Qle_shift_div_l; assumption). lra.
Qed.

(** One counted submission lifts the score to 40 or more. *)
Lemma calculateChallengeScore_at_least_40 now db userId skillId v :
  inRange db ->
  Exists (forThisSkill db skillId) (SubmissionModel.findVerifiedPassed db userId) ->
  calculateChallengeScore now db userId skillId = Normal v ->
  40 <= v.
Proof.
  intros (Hsub & _ & _) Hex. unfold calculateChallengeScore.
  destruct (Nat.eqb _ 0) eqn:En.
  - apply Nat.eqb_eq, length_zero_iff_nil in En. rewrite En in Hex. inversion Hex.
  - destruct (challengeLoop _ _ _ _ _) as [[t m]|msg] eqn:E; simpl; [|discriminate].
    intros [= <-].
    destruct (challengeLoop_floor _ _ _ _ (Forall_filter _ _ _ Hsub) 0 0 t m
                ltac:(lra) E) as (Hfloor & _ & Hpos).
    specialize (Hpos Hex). apply lt_spec in Hpos as Hlt. rewrite Hlt.
    apply ratio_floor; assumption.
Qed.

(** X1: for submission scores in range, the challenge score is either 0 or
    at least 40, and it is at least 40 as soon as one verified, passed
    submission belongs to the skill. *)
Theorem challenge_score_zero_or_40 now db userId skillId v :
  inRange db ->
  calculateChallengeScore now db userId skillId = Normal v ->
  (v == 0 \/ 40 <= v)
  /\ (Exists (forThisSkill db skillId)
        (SubmissionModel.findVerifiedPassed db userId) -> 40 <= v).
Proof.
  intros Hdb Hv. split.
  - destruct Hdb as (Hsub & _ & _). revert Hv. unfold calculateChallengeScore.
    destruct (Nat.eqb _ 0).
    + intros [= <-]. left. reflexivity.
    + destruct (challengeLoop _ _ _ _ _) as [[t m]|msg] eqn:E; simpl;
        [|discriminate].
      intros [= <-].
      destruct (challengeLoop_floor _ _ _ _ (Forall_filter _ _ _ Hsub) 0 0 t m
                  ltac:(lra) E) as (Hfloor & _ & _).
      destruct (lt 0 m) eqn:Em; [right | left; reflexivity].
      apply lt_spec in Em. apply ratio_floor; assumption.
  - intros Hex. exact (calculateChallengeScore_at_least_40 _ _ _ _ _ Hdb Hex Hv).
Qed.

Lemma scenarioA_inRange : inRange Scenario.scenarioA.
Proof.
  split; [|split].
  - repeat constructor; discriminate.
  - constructor.
  - intros i u H. unfold Scenario.scenarioA in H. simpl in H.
    rewrite lookup_singleton_Some in H. destruct H as [_ <-].
    split; [split; discriminate | constructor].
Qed.

Lemma challenge_score_zero_or_40_witness :
  inRange Scenario.scenarioA
  /\ exists v,
       calculateChallengeScore Scenario.today Scenario.scenarioA
         Scenario.alice Scenario.rocq = Normal v
       /\ 40 <= v.
Proof.
  split; [exact scenarioA_inRange|].
  eexists. split; [vm_compute; reflexivity|].
  refine (proj2 (challenge_score_zero_or_40 Scenario.today Scenario.scenarioA
                   Scenario.alice Scenario.rocq _ scenarioA_inRange _) _).
  - vm_compute. reflexivity.
  - left. exists (mkChallenge Scenario.rocq medium 70). split; reflexivity.
Defined.

(** X2: for submission scores in range and no submission dated in the
    future, the challenge score never exceeds 90: the cap of 100 in
    [calculateChallengeScore] is never reached. *)
Theorem challenge_score_at_most_90 now db userId skillId v :
  inRange db -> notFromFuture now db ->
  calculateChallengeScore now db userId skillId = Normal v ->
  v <= 90.
Proof.
  intros (Hsub & _ & _) Hpast. unfold calculateChallengeScore.
  destruct (Nat.eqb _ 0).
  - intros [= <-]. discriminate.
  - destruct (challengeLoop _ _ _ _ _) as [[t m]|msg] eqn:E; simpl; [|discriminate].
    intros [= <-].
    pose proof (challengeLoop_ceiling _ _ _ _
                  (Forall_and_filter _ _ _ _ Hsub Hpast) 0 0 t m ltac:(lra) E)
      as Hceil.
    destruct (lt 0 m) eqn:Em; [|discriminate].
    apply lt_spec in Em.
    apply Qle_trans with (t / m * 100); [apply Q.le_min_l|].
    assert (t / m <= 9 # 10) by (apply Qle_shift_div_r; assumption). lra.
Qed.

Lemma challenge_score_at_most_90_witness :
  inRange Scenario.scenarioA
  /\ notFromFuture Scenario.today Scenario.scenarioA
  /\ exists v,
       calculateChallengeScore Scenario.today Scenario.scenarioA
         Scenario.alice Scenario.rocq = Normal v
       /\ v <= 90.
Proof.
  assert (Hpast : notFromFuture Scenario.today Scenario.scenarioA).
  { repeat constructor. discriminate. }
  split; [exact scenarioA_inRange|]. split; [exact Hpast|].
  eexists. split; [vm_compute; reflexivity|].
  refine (challenge_score_at_most_90 Scenario.today Scenario.scenarioA
            Scenario.alice Scenario.rocq _ scenarioA_inRange Hpast _).
  vm_compute. reflexivity.
Defined.

End ChallengeEvidence.

(** ** When the aggregator reports an error *)

Section Failures.

Lemma challengeLoop_returns now db skillId subs acc :
  (exists r, challengeLoop now db skillId subs acc = Normal r)
  <-> Forall (fun s => is_Some (SubmissionModel.populateChallenge db s)) subs.
Proof.
  revert acc. induction subs as [|s subs IH]; intros acc; simpl.
  - split; [constructor | eauto].
  - destruct (SubmissionModel.populateChallenge db s) as [c|] eqn:Ec.
    + assert (Hstep : forall X : Prop,
                (X <-> Forall (fun s => is_Some (SubmissionModel.populateChallenge db s)) subs) ->
                (X <-> Forall (fun s => is_Some (SubmissionModel.populateChallenge db s))
                         (s :: subs))).
      { intros X HX. rewrite HX. split.
        - intros H. constructor; [rewrite Ec; eauto | exact H].
        - intros H. inversion H; assumption. }
      destruct (negb (N.eqb (ch_skill c) skillId)); [apply Hstep, IH|].
      destruct acc as [t m]. apply Hstep, IH.
    + split.
      * intros [r Hr]. discriminate.
      * intros H. inversion H as [|? ? Hs _]; subst. rewrite Ec in Hs.
        destruct Hs as [? Hs]. discriminate.
Qed.

Lemma endorsementLoop_returns db es acc :
  (exists r, endorsementLoop db es acc = Normal r)
  <-> Forall (fun e => is_Some (EndorsementModel.populateEndorser db e)) es.
Proof.
  revert acc. induction es as [|e es IH]; intros [tl tw]; simpl.
  - split; [constructor | eauto].
  - destruct (EndorsementModel.populateEndorser db e) as [u|] eqn:Eu.
    + rewrite IH. split.
      * intros H. constructor; [rewrite Eu; eauto | exact H].
      * intros H. inversion H; assumption.
    + split.
      * intros [r Hr]. discriminate.
      * intros H. inversion H as [|? ? He _]; subst. rewrite Eu in He.
        destruct He as [? He]. discriminate.
Qed.

Lemma calculateChallengeScore_returns now db userId skillId :
  (exists v, calculateChallengeScore now db userId skillId = Normal v)
  <-> Forall (fun s => is_Some (SubmissionModel.populateChallenge db s))
        (SubmissionModel.findVerifiedPassed db userId).
Proof.
  unfold calculateChallengeScore.
  set (found := SubmissionModel.findVerifiedPassed db userId).
  destruct (Nat.eqb (length found) 0) eqn:En.
  - apply Nat.eqb_eq, length_zero_iff_nil in En. rewrite En.
    split; [constructor | eauto].
  - rewrite <- (challengeLoop_returns now db skillId found (0, 0)).
    destruct (challengeLoop now db skillId found (0, 0)) as [[t m]|msg]; simpl.
    + split; eauto.
    + split; intros [r Hr]; discriminate.
Qed.

Lemma calculateEndorsementScore_returns db userId skillId :
  (exists v, calculateEndorsementScore db userId skillId = Normal v)
  <-> Forall (fun e => is_Some (EndorsementModel.populateEndorser db e))
        (EndorsementModel.findValid db userId skillId).
Proof.
  unfold calculateEndorsementScore.
  set (found := EndorsementModel.findValid db userId skillId).
  destruct (Nat.eqb (length found) 0) eqn:En.
  - apply Nat.eqb_eq, length_zero_iff_nil in En. rewrite En.
    split; [constructor | eauto].
  - rewrite <- (endorsementLoop_returns db found (0, 0)).
    destruct (endorsementLoop db found (0, 0)) as [[tl tw]|msg]; simpl.
    + split; eauto.
    + split; intros [r Hr]; discriminate.
Qed.

(** The result of a computation that met no error. *)
Lemma calculateSkillCredibility_no_error now db userId skillId :
  error (calculateSkillCredibility now db userId skillId) = None ->
  exists c e,
    calculateChallengeScore now db userId skillId = Normal c
    /\ calculateEndorsementScore db userId skillId = Normal e
    /\ challengeScore (breakdown (calculateSkillCredibility now db userId skillId)) = c
    /\ endorsementScore (breakdown (calculateSkillCredibility now db userId skillId)) = e
    /\ isVerified (calculateSkillCredibility now db userId skillId)
       = ge c 30 || ge e 40.
Proof.
  unfold calculateSkillCredibility.
  destruct (calculateChallengeScore now db userId skillId) as [c|msg]; simpl;
    [|discriminate].
  destruct (calculateEndorsementScore db userId skillId) as [e|msg]; simpl;
    [|discriminate].
  intros _. exists c, e. repeat split.
Qed.

Lemma no_error_when_references_resolve now db userId skillId :
  referencesResolve db userId skillId ->
  error (calculateSkillCredibility now db userId skillId) = None.
Proof.
  intros [Hc He].
  apply calculateChallengeScore_returns with (now := now) (skillId := skillId) in Hc.
  apply calculateEndorsementScore_returns in He.
  destruct Hc as [c Hc]. destruct He as [e He].
  unfold calculateSkillCredibility. rewrite Hc, He. reflexivity.
Qed.

(** X3: [calculateSkillCredibility] reports an error exactly when a reference
    it follows does not resolve: the challenge of a verified, passed
    submission of the person, or the endorser of a valid endorsement of the
    skill.  A result with an error has total 0 and is not verified. *)
Theorem error_iff_dangling_reference now db userId skillId :
  let result := calculateSkillCredibility now db userId skillId in
  (error result = None <-> referencesResolve db userId skillId)
  /\ (error result <> None -> totalScore result = 0%Z /\ isVerified result = false).
Proof.
  simpl. split; [split; [|apply no_error_when_references_resolve]|].
  - intros Hnone.
    destruct (calculateSkillCredibility_no_error _ _ _ _ Hnone)
      as (c & e & Hc & He & _).
    split.
    + apply (calculateChallengeScore_returns now db userId skillId). eauto.
    + apply calculateEndorsementScore_returns. eauto.
  - unfold calculateSkillCredibility.
    destruct (calculateChallengeScore now db userId skillId) as [c|msg]; simpl;
      [|intros _; split; reflexivity].
    destruct (calculateEndorsementScore db userId skillId) as [e|msg]; simpl;
      [congruence | intros _; split; reflexivity].
Qed.

Lemma full_referencesResolve :
  referencesResolve Scenario.full Scenario.alice Scenario.rocq.
Proof. split; repeat constructor; eexists; reflexivity. Qed.

Lemma error_iff_dangling_reference_witness :
  referencesResolve Scenario.full Scenario.alice Scenario.rocq
  /\ error (calculateSkillCredibility Scenario.today Scenario.full
              Scenario.alice Scenario.rocq) = None
  /\ ~ referencesResolve Scenario.dangling Scenario.alice Scenario.rocq.
Proof.
  split; [exact full_referencesResolve|]. split.
  - exact (proj2 (proj1 (error_iff_dangling_reference Scenario.today Scenario.full
                           Scenario.alice Scenario.rocq))
             full_referencesResolve).
  - intros H.
    apply (proj1 (error_iff_dangling_reference Scenario.today Scenario.dangling
                    Scenario.alice Scenario.rocq)) in H.
    discriminate H.
Defined.

End Failures.

(** ** What earns the verification flag *)

Section Verification.

(** X4: with submission scores in range and every reference resolving, one
    verified, passed submission that belongs to the skill is enough for
    [calculateSkillCredibility] to flag the skill as verified. *)
Theorem passed_submission_verifies now db userId skillId :
  inRange db ->
  referencesResolve db userId skillId ->
  Exists (forThisSkill db skillId) (SubmissionModel.findVerifiedPassed db userId) ->
  isVerified (calculateSkillCredibility now db userId skillId) = true.
Proof.
  intros Hdb Href Hex.
  apply (no_error_when_references_resolve now) in Href.
  destruct (calculateSkillCredibility_no_error _ _ _ _ Href)
    as (c & e & Hc & _ & _ & _ & Hv).
  rewrite Hv. apply orb_true_iff. left. apply ge_spec.
  pose proof (calculateChallengeScore_at_least_40 _ _ _ _ _ Hdb Hex Hc). lra.
Qed.

Lemma passed_submission_verifies_witness :
  inRange Scenario.full
  /\ referencesResolve Scenario.full Scenario.alice Scenario.rocq
  /\ Exists (forThisSkill Scenario.full Scenario.rocq)
       (SubmissionModel.findVerifiedPassed Scenario.full Scenario.alice)
  /\ isVerified (calculateSkillCredibility Scenario.today Scenario.full
                   Scenario.alice Scenario.rocq) = true.
Proof.
  assert (Hex : Exists (forThisSkill Scenario.full Scenario.rocq)
                  (SubmissionModel.findVerifiedPassed Scenario.full Scenario.alice)).
  { left. exists (mkChallenge Scenario.rocq medium 70). split; reflexivity. }
  exact (conj full_inRange (conj full_referencesResolve (conj Hex
    (passed_submission_verifies Scenario.today Scenario.full Scenario.alice
       Scenario.rocq full_inRange full_referencesResolve Hex)))).
Defined.

Lemma endorsementLoop_levels db es :
  Forall (fun e => en_level e = level_expert) es ->
  forall tl tw tl' tw',
    endorsementLoop db es (tl, tw) = Normal (tl', tw') ->
    tl' == tl + 4 * count es.
Proof.
  induction 1 as [|e es He _ IH]; intros tl tw tl' tw'; simpl.
  - intros [= <- <-]. rewrite count_nil. ring.
  - destruct (EndorsementModel.populateEndorser db e) as [u|]; [|discriminate].
    intros Hloop. apply IH in Hloop. rewrite Hloop, count_cons, He.
    change (or_default (LEVEL_VALUES level_expert) 1) with 4. ring.
Qed.

(** X5: with endorsement weights and endorser credibility in range, a skill
    whose valid endorsements are all of level expert has an endorsement score
    of at least 52, whoever the endorsers are; the skill is then flagged as
    verified. *)
Theorem expert_endorsement_verifies now db userId skillId :
  inRange db ->
  referencesResolve db userId skillId ->
  EndorsementModel.findValid db userId skillId <> [] ->
  Forall (fun e => en_level e = level_expert)
    (EndorsementModel.findValid db userId skillId) ->
  (exists v, calculateEndorsementScore db userId skillId = Normal v /\ 52 <= v)
  /\ isVerified (calculateSkillCredibility now db userId skillId) = true.
Proof.
  intros Hdb Href Hne Hall.
  apply (no_error_when_references_resolve now) in Href.
  destruct (calculateSkillCredibility_no_error _ _ _ _ Href)
    as (c & v & _ & Hv & _ & _ & Hflag).
  assert (Hlow : 52 <= v).
  { destruct Hdb as (_ & Hen & Hu). revert Hv. unfold calculateEndorsementScore.
    set (es := EndorsementModel.findValid db userId skillId) in *.
    destruct (Nat.eqb (length es) 0) eqn:En.
    { apply Nat.eqb_eq, length_zero_iff_nil in En. contradiction. }
    destruct (endorsementLoop db es (0, 0)) as [[tl tw]|msg] eqn:E; simpl;
      [|discriminate].
    intros [= <-]. fold (count es).
    destruct (endorsementLoop_nonneg _ _ Hu (Forall_filter _ _ _ Hen) _ _ _ _
                (Qle_refl 0) (Qle_refl 0) E) as [_ Htw].
    pose proof (endorsementLoop_levels _ _ Hall _ _ _ _ E) as Htl.
    pose proof (count_pos es Hne) as Hn.
    unfold endorsement_level, endorsement_weight, endorsement_count.
    assert (H1 : tl / (count es * 4) == 1) by (rewrite Htl; field; lra).
    assert (H2 : 0 <= tw / (count es * 100)) by (apply div_nonneg; lra).
    assert (H3 : 2 <= Math_min (count es * 2) 20) by (apply min_glb; lra).
    apply min_glb; [|lra]. rewrite H1. lra. }
  split; [exists v; split; assumption|].
  rewrite Hflag. apply orb_true_iff. right. apply ge_spec. lra.
Qed.

Lemma expert_endorsement_verifies_witness :
  inRange Scenario.full
  /\ isVerified (calculateSkillCredibility Scenario.today Scenario.full
                   Scenario.alice Scenario.rocq) = true.
Proof.
  split; [exact full_inRange|].
  refine (proj2 (expert_endorsement_verifies Scenario.today Scenario.full
                   Scenario.alice Scenario.rocq full_inRange
                   full_referencesResolve _ _)).
  - discriminate.
  - repeat constructor.
Defined.

Lemma product_le_100 (p d : Q) : p <= 100 -> 0 <= d <= 1 -> p * d <= 100.
Proof.
  intros Hp [Hd0 Hd1]. destruct (Qlt_le_dec p 0) as [Hneg|Hpos].
  - assert (0 <= (- p) * d) by (apply Qmult_le_0_compat; lra).
    assert (E : p * d == - ((- p) * d)) by ring. rewrite E. lra.
  - assert (p * d <= p * 1).
    { rewrite !(Qmult_comm p). apply Qmult_le_compat_r; assumption. }
    lra.
Qed.

Lemma calculateProficiencyScore_le_100 db userId skillId :
  calculateProficiencyScore db userId skillId <= 100.
Proof.
  unfold calculateProficiencyScore.
  destruct (users db !! userId) as [user|]; [|discriminate].
  destruct (UserModel.findSkill user skillId); [apply min_le_r | discriminate].
Qed.

(** X6: without a verified, passed submission for the skill and without a
    valid endorsement, the total score is at most 25 and the skill is not
    flagged as verified, whatever proficiency the person declares.  The
    result carries no error exactly when every verified, passed submission of
    the person refers to an existing challenge. *)
Theorem declared_proficiency_alone now db userId skillId :
  ~ Exists (forThisSkill db skillId) (SubmissionModel.findVerifiedPassed db userId) ->
  EndorsementModel.findValid db userId skillId = [] ->
  let result := calculateSkillCredibility now db userId skillId in
  (totalScore result <= 25)%Z
  /\ isVerified result = false
  /\ (error result = None
      <-> Forall (fun s => is_Some (SubmissionModel.populateChallenge db s))
            (SubmissionModel.findVerifiedPassed db userId)).
Proof.
  intros Hsub Hen. simpl.
  pose proof (calculateChallengeScore_returns now db userId skillId) as Hret.
  unfold calculateSkillCredibility.
  destruct (calculateChallengeScore_without_evidence now db userId skillId Hsub)
    as [Hc | [message Hc]]; rewrite Hc in *.
  2:{ simpl. split; [lia|]. split; [reflexivity|]. split; [discriminate|].
      intros H. apply Hret in H. destruct H as [v H]. discriminate. }
  rewrite (calculateEndorsementScore_none _ _ _ Hen). simpl.
  split; [|split; [reflexivity|split; [intros _; apply Hret; eauto | reflexivity]]].
  apply Z.le_trans with (Math_round
    ((0 * (4 # 10) + 0 * (35 # 100)
      + calculateProficiencyScore db userId skillId * (25 # 100))
     * calculateTimeDecay now db userId skillId)); [apply Z.le_min_l|].
  unfold Math_round. change 25%Z with (Qfloor (51 # 2)). apply Qfloor_resp_le.
  pose proof (calculateProficiencyScore_le_100 db userId skillId) as Hp.
  pose proof (calculateTimeDecay_range now db userId skillId) as [Hd0 Hd1].
  pose proof (product_le_100 _ (calculateTimeDecay now db userId skillId) Hp
                ltac:(split; lra)) as Hpd.
  set (p := calculateProficiencyScore db userId skillId) in *.
  set (d := calculateTimeDecay now db userId skillId) in *.
  assert (E : (0 * (4 # 10) + 0 * (35 # 100) + p * (25 # 100)) * d + (1 # 2)
              == (1 # 4) * (p * d) + (1 # 2)) by ring.
  rewrite E. lra.
Qed.

Lemma declared_proficiency_alone_witness :
  (totalScore (calculateSkillCredibility Scenario.today Scenario.stale
                 Scenario.alice Scenario.rocq) <= 25)%Z.
Proof.
  refine (proj1 (declared_proficiency_alone Scenario.today Scenario.stale
                   Scenario.alice Scenario.rocq _ _)).
  - intros H. inversion H.
  - reflexivity.
Defined.

End Verification.

(** ** Proficiency and decay in closed form *)

Section ClosedForms.

(** X7: for a skill record in range (level 1 to 10, years non-negative) the
    proficiency score is [25 + 5 * level + 2.5 * min(years, 10)]: the cap of
    100 is never needed, the score is at least 30, and years beyond ten add
    nothing. *)
Theorem proficiency_closed_form db userId skillId user userSkill :
  users db !! userId = Some user ->
  UserModel.findSkill user skillId = Some userSkill ->
  skillInRange userSkill ->
  let score := calculateProficiencyScore db userId skillId in
  score == 25 + 5 * us_proficiencyLevel userSkill
           + (5 # 2) * Qmin (us_yearsOfExperience userSkill) 10
  /\ 30 <= score
  /\ (10 <= us_yearsOfExperience userSkill ->
      score == 50 + 5 * us_proficiencyLevel userSkill).
Proof.
  intros Hu Hs [[Hl0 Hl1] Hy]. simpl. unfold calculateProficiencyScore.
  rewrite Hu, Hs. unfold proficiency_base, proficiency_level,
    proficiency_experience, Math_min.
  set (l := us_proficiencyLevel userSkill) in *.
  set (y := Qmin (us_yearsOfExperience userSkill) 10).
  assert (Hy0 : 0 <= y) by (apply Q.min_glb; lra).
  assert (Hy1 : y <= 10) by apply Q.le_min_r.
  assert (E : Qmin (25 + l / 10 * 50 + y / 10 * 25) 100
              == 25 + 5 * l + (5 # 2) * y).
  { rewrite Q.min_l.
    - field.
    - assert (E : 25 + l / 10 * 50 + y / 10 * 25 == 25 + 5 * l + (5 # 2) * y)
        by field. rewrite E. lra. }
  split; [exact E|]. split; [rewrite E; lra|].
  intros Hten. assert (Ey : y == 10) by (apply Q.min_r; exact Hten).
  rewrite E, Ey. ring.
Qed.

Lemma proficiency_closed_form_witness :
  calculateProficiencyScore Scenario.full Scenario.alice Scenario.rocq
  == 25 + 5 * 5 + (5 # 2) * Qmin 3 10.
Proof.
  refine (proj1 (proficiency_closed_form Scenario.full Scenario.alice Scenario.rocq
                   (mkUser [mkUserSkill Scenario.rocq 5 3 false 0
                              (Scenario.today - 10 * Scenario.day)%Z;
                            mkUserSkill Scenario.ocaml 2 1 false 0
                              (Scenario.today - 20 * Scenario.day)%Z] 0)
                   (mkUserSkill Scenario.rocq 5 3 false 0
                      (Scenario.today - 10 * Scenario.day)%Z)
                   eq_refl eq_refl _)).
  repeat split; discriminate.
Defined.

(** X8: the decay factor sits at its floor of 1/2 exactly from 455 days
    (90 + 365) on; before that it is strictly larger. *)
Theorem decay_floor_from_455_days (t : Q) :
  (455 <= t -> decayAfter t == 1 # 2)
  /\ (t < 455 -> 1 # 2 < decayAfter t).
Proof.
  split.
  - intros H. rewrite decayAfter_old by lra.
    apply Q.max_l. apply Qle_trans with (1 - (t - 90) / (365 * 2)).
    + apply Q.le_min_l.
    + assert (E : 1 - (t - 90) / (365 * 2) == (820 - t) * (1 # 730)) by field.
      rewrite E. lra.
  - intros H. destruct (Qlt_le_dec t 90) as [Hfresh|Hold].
    + rewrite (decayAfter_fresh _ Hfresh). reflexivity.
    + rewrite (decayAfter_old _ Hold).
      apply Qlt_le_trans with (Qmin (1 - (t - 90) / (365 * 2)) 1);
        [|apply Q.le_max_r].
      apply Q.min_glb_lt; [|reflexivity].
      assert (E : 1 - (t - 90) / (365 * 2) == (820 - t) * (1 # 730)) by field.
      rewrite E. lra.
Qed.

Lemma decay_floor_from_455_days_witness :
  decayAfter 455 == 1 # 2 /\ 1 # 2 < decayAfter 454.
Proof.
  split.
  - apply (proj1 (decay_floor_from_455_days 455)). discriminate.
  - apply (proj2 (decay_floor_from_455_days 454)). reflexivity.
Defined.

End ClosedForms.

(** ** What a recomputation touches *)

Section RecomputeFrame.

Lemma rescoreUser_skills now db userId user :
  u_skills (rescoreUser now db userId user)
  = List.map (rescoreSkill now db userId) (u_skills user).
Proof. unfold rescoreUser. apply updateCredibilityScore_average. Qed.




(** The scores that [updateAllSkillScores] writes are again valid inputs. *)
Lemma updateAllSkillScores_inRange now db userId :
  inRange db -> inRange (updateAllSkillScores now db userId).
Proof.
  intros Hdb. pose proof Hdb as (H1 & H2 & H3).
  destruct (users db !! userId) as [user|] eqn:Hu.
  - split; [|split].
    + unfold updateAllSkillScores. rewrite Hu. exact H1.
    + unfold updateAllSkillScores. rewrite Hu. exact H2.
    + intros i u Hi. destruct (decide (i = userId)) as [->|Hne].
      * destruct (updateAllSkillScores_range _ _ _ _ Hdb Hi) as [Hc Hs].
        split; [exact Hc|]. eapply List.Forall_impl; [|exact Hs].
        intros s [_ Hs']. exact Hs'.
      * unfold updateAllSkillScores in Hi. rewrite Hu in Hi.
        unfold UserModel.save in Hi. simpl in Hi.
        rewrite lookup_insert_ne in Hi by congruence. exact (H3 _ _ Hi).
  - unfold updateAllSkillScores. rewrite Hu. exact Hdb.
Qed.


End RecomputeFrame.

(** ** The overall score as a weighted average *)

Section OverallAverage.

Lemma Math_round_between (lo hi : Z) (x : Q) :
  inject_Z lo <= x <= inject_Z hi -> (lo <= Math_round x <= hi)%Z.
Proof.
  intros [Hlo Hhi]. unfold Math_round. split.
  - rewrite <- (Qfloor_Z lo). apply Qfloor_resp_le. lra.
  - assert (H : inject_Z (Qfloor (x + (1 # 2))) < inject_Z (hi + 1)).
    { apply Qle_lt_trans with (x + (1 # 2)); [apply Qfloor_le|].
      rewrite inject_Z_plus. change (inject_Z 1) with 1. lra. }
    rewrite <- Zlt_Qlt in H. lia.
Qed.

Lemma weighted_sums_between (w : UserSkill -> Q) (lo hi : Q) skills :
  Forall (fun s => lo <= us_credibilityScore s <= hi /\ 0 < w s) skills ->
  lo * Design.sumQ (List.map w skills)
  <= Design.sumQ (List.map (fun s => us_credibilityScore s * w s) skills)
  /\ Design.sumQ (List.map (fun s => us_credibilityScore s * w s) skills)
     <= hi * Design.sumQ (List.map w skills)
  /\ (skills <> [] -> 0 < Design.sumQ (List.map w skills))
  /\ 0 <= Design.sumQ (List.map w skills).
Proof.
  induction 1 as [|s skills [[Hc0 Hc1] Hw] _ (IH1 & IH2 & _ & IH4)]; simpl.
  - repeat split; try lra. congruence.
  - assert (lo * w s <= us_credibilityScore s * w s)
      by (apply Qmult_le_compat_r; lra).
    assert (us_credibilityScore s * w s <= hi * w s)
      by (apply Qmult_le_compat_r; lra).
    repeat split; try lra.
Qed.

Lemma weightedAverage_between (w : UserSkill -> Q) (lo hi : Z) skills :
  skills <> [] ->
  Forall (fun s => inject_Z lo <= us_credibilityScore s <= inject_Z hi /\ 0 < w s)
    skills ->
  (lo <= Design.weightedAverage w skills <= hi)%Z.
Proof.
  intros Hne H. unfold Design.weightedAverage.
  destruct skills as [|s skills]; [congruence|].
  destruct (weighted_sums_between w _ _ _ H) as (H1 & H2 & H3 & _).
  specialize (H3 Hne). apply Math_round_between. split.
  - apply Qle_shift_div_l; assumption.
  - apply Qle_shift_div_r; assumption.
Qed.

(** X11: the loop of [calculateOverallCredibility] computes
    [round(sum(score * w) / sum(w))] with
    [w = proficiencyLevel * (yearsOfExperience + 1)], and the loop of
    [User.updateCredibilityScore] the same average with
    [w = proficiencyLevel * yearsOfExperience + 1]; without skills both give
    0, and so does [calculateOverallCredibility] for an unknown person. *)
Theorem overall_score_closed_forms db userId :
  calculateOverallCredibility db userId
  = match users db !! userId with
    | Some user => Design.weightedAverage Design.weight (u_skills user)
    | None => 0%Z
    end
  /\ (forall user,
        u_credibilityScore (UserModel.updateCredibilityScore user)
        = inject_Z (Design.weightedAverage UserModel.skillWeight (u_skills user))
        /\ u_skills (UserModel.updateCredibilityScore user) = u_skills user)
  /\ Design.weightedAverage Design.weight [] = 0%Z
  /\ Design.weightedAverage UserModel.skillWeight [] = 0%Z.
Proof.
  split; [|split; [|split; reflexivity]].
  - destruct (users db !! userId) as [user|] eqn:Hu.
    + apply (calculateOverallCredibility_average _ _ _ Hu).
    + unfold calculateOverallCredibility. rewrite Hu. reflexivity.
  - intros user. destruct (updateCredibilityScore_average user) as [Hs Hc].
    split; assumption.
Qed.

(** X12: for skills in range with years of experience up to [maxYears],
    whose stored scores all lie between two integers of [[0,100]], the
    overall score that [User.updateCredibilityScore] stores and the one
    [calculateOverallCredibility] returns lie between them too; when all
    skills have the same integer score, that score is the overall score under
    either weighting. *)
Theorem overall_between_skill_scores db userId user (lo hi : Z) :
  users db !! userId = Some user ->
  u_skills user <> [] ->
  (0 <= lo)%Z -> (hi <= 100)%Z ->
  Forall (fun s => skillInRange s
                   /\ us_yearsOfExperience s <= maxYears
                   /\ inject_Z lo <= us_credibilityScore s <= inject_Z hi)
    (u_skills user) ->
  (lo <= calculateOverallCredibility db userId <= hi)%Z
  /\ inject_Z lo <= u_credibilityScore (UserModel.updateCredibilityScore user)
     <= inject_Z hi
  /\ (lo = hi ->
      calculateOverallCredibility db userId = lo
      /\ u_credibilityScore (UserModel.updateCredibilityScore user) = inject_Z lo).
Proof.
  intros Hu Hne _ _ Hall.
  assert (H1 : (lo <= calculateOverallCredibility db userId <= hi)%Z).
  { rewrite (calculateOverallCredibility_average _ _ _ Hu).
    apply weightedAverage_between; [exact Hne|].
    eapply List.Forall_impl; [|exact Hall].
    intros s (Hs & _ & Hc). split; [exact Hc | apply overallWeight_pos, Hs]. }
  assert (H2 : (lo <= Design.weightedAverage UserModel.skillWeight (u_skills user)
                <= hi)%Z).
  { apply weightedAverage_between; [exact Hne|].
    eapply List.Forall_impl; [|exact Hall].
    intros s (Hs & _ & Hc). split; [exact Hc | apply skillWeight_pos, Hs]. }
  destruct (updateCredibilityScore_average user) as [_ Hc]. rewrite Hc.
  split; [exact H1|]. split.
  - rewrite <- !Zle_Qle. exact H2.
  - intros ->. split; [lia | f_equal; lia].
Qed.

Lemma overall_between_skill_scores_witness :
  let user := mkUser [mkUserSkill Scenario.rocq 10 0 false 19 Scenario.today;
                      mkUserSkill Scenario.ocaml 1 0 false 8 Scenario.today] 0 in
  let db := mkDB {[ Scenario.alice := user ]} ∅ [] [] in
  (8 <= calculateOverallCredibility db Scenario.alice <= 19)%Z.
Proof.
  intros user db.
  refine (proj1 (overall_between_skill_scores db Scenario.alice user 8 19
                   eq_refl _ _ _ _)).
  - discriminate.
  - lia.
  - lia.
  - repeat constructor; discriminate.
Defined.

(** X13: on skills that all have proficiency level 1 the two weightings
    coincide: [calculateOverallCredibility] returns the score that
    [User.updateCredibilityScore] stores. *)
Theorem overall_scores_agree_at_level_1 db userId user :
  users db !! userId = Some user ->
  Forall (fun s => us_proficiencyLevel s == 1) (u_skills user) ->
  inject_Z (calculateOverallCredibility db userId)
  = u_credibilityScore (UserModel.updateCredibilityScore user).
Proof.
  intros Hu Hall.
  rewrite (calculateOverallCredibility_average _ _ _ Hu).
  destruct (updateCredibilityScore_average user) as [_ Hc]. rewrite Hc.
  f_equal. symmetry. apply weightings_agree_at_level_1, Hall.
Qed.

Lemma overall_scores_agree_at_level_1_witness :
  let user := mkUser [mkUserSkill Scenario.rocq 1 4 false 60 Scenario.today;
                      mkUserSkill Scenario.ocaml 1 0 false 20 Scenario.today] 0 in
  let db := mkDB {[ Scenario.alice := user ]} ∅ [] [] in
  inject_Z (calculateOverallCredibility db Scenario.alice)
  = u_credibilityScore (UserModel.updateCredibilityScore user).
Proof.
  intros user db.
  refine (overall_scores_agree_at_level_1 db Scenario.alice user eq_refl _).
  repeat constructor.
Defined.

End OverallAverage.

(** ** The endorsement model *)

Section EndorsementStatics.

Lemma levelScore_bounds (l : Level) :
  1 <= or_default (EndorsementModel.levelScores l) 1 <= 4.
Proof. destruct l; split; discriminate. Qed.

Lemma levelLoop_bounds es :
  Forall (fun e => 0 <= en_weight e <= 1) es ->
  forall tw ws,
    ws <= snd (EndorsementModel.levelLoop es (tw, ws)) <= ws + 4 * count es.
Proof.
  induction 1 as [|e es [Hw0 Hw1] _ IH]; intros tw ws; simpl.
  - rewrite count_nil. split; lra.
  - pose proof (levelScore_bounds (en_level e)) as [Hl0 Hl1].
    set (l := or_default (EndorsementModel.levelScores (en_level e)) 1) in *.
    assert (0 <= l * en_weight e) by (apply Qmult_le_0_compat; lra).
    assert (l * en_weight e <= 4 * 1).
    { apply Qle_trans with (4 * en_weight e).
      - apply Qmult_le_compat_r; lra.
      - rewrite !(Qmult_comm 4). apply Qmult_le_compat_r; lra. }
    specialize (IH (tw + en_weight e) (ws + l * en_weight e)).
    rewrite count_cons. lra.
Qed.

(** X14: for endorsement weights in [[0,1]] the static
    [Endorsement.calculateEndorsementScore] returns an integer between 0 and
    100, and 0 when the (recipient, skill) pair has no valid endorsement. *)
Theorem static_endorsement_score_range db userId skillId :
  Forall (fun e => 0 <= en_weight e <= 1) (endorsements db) ->
  (0 <= EndorsementModel.calculateEndorsementScore db userId skillId <= 100)%Z
  /\ (EndorsementModel.findValid db userId skillId = [] ->
      EndorsementModel.calculateEndorsementScore db userId skillId = 0%Z).
Proof.
  intros Hw. unfold EndorsementModel.calculateEndorsementScore.
  set (es := EndorsementModel.findValid db userId skillId).
  split; [|intros ->; reflexivity].
  destruct (Nat.eqb (length es) 0) eqn:En; [lia|].
  assert (Hne : es <> []) by (intros Hnil; rewrite Hnil in En; discriminate).
  pose proof (count_pos es Hne) as Hn.
  pose proof (levelLoop_bounds es (Forall_filter _ _ _ Hw) 0 0) as [H0 H1].
  destruct (EndorsementModel.levelLoop es (0, 0)) as [tw ws]. simpl in H0, H1.
  fold (count es).
  assert (Hq0 : 0 <= ws / (4 * count es)) by (apply div_nonneg; lra).
  assert (Hq1 : ws / (4 * count es) <= 1) by (apply Qle_shift_div_r; lra).
  split; [apply Math_round_nonneg | apply Math_round_le_100]; lra.
Qed.

Lemma static_endorsement_score_range_witness :
  (0 <= EndorsementModel.calculateEndorsementScore Scenario.full
          Scenario.alice Scenario.rocq <= 100)%Z.
Proof.
  refine (proj1 (static_endorsement_score_range Scenario.full Scenario.alice
                   Scenario.rocq _)).
  repeat constructor; discriminate.
Defined.

End EndorsementStatics.

(** ** Analytics and grading *)

Section RoutesArithmetic.

(** X16: the credibility distribution of [GET /analytics] puts an integer
    score between 0 and 100, as the scoring engine stores them, in a bucket
    whose label spells out bounds that contain the score. *)
Theorem credibility_bucket_matches_label (z : Z) :
  (0 <= z <= 100)%Z ->
  exists lo hi,
    In (recruiters.credibilityBucket (inject_Z z), (lo, hi)) bucketBounds
    /\ (lo <= z <= hi)%Z.
Proof.
  intros Hz. unfold recruiters.credibilityBucket, ge, bucketBounds.
  assert (Hb : forall k : Z, Qle_bool (inject_Z k) (inject_Z z) = (k <=? z)%Z).
  { intros k. destruct (k <=? z)%Z eqn:E.
    - apply Qle_bool_iff. rewrite <- Zle_Qle. lia.
    - destruct (Qle_bool (inject_Z k) (inject_Z z)) eqn:E'; [|reflexivity].
      apply Qle_bool_iff in E'. rewrite <- Zle_Qle in E'. lia. }
  change 80 with (inject_Z 80). change 60 with (inject_Z 60).
  change 40 with (inject_Z 40). change 20 with (inject_Z 20).
  rewrite !Hb.
  destruct (80 <=? z)%Z eqn:E80;
    [exists 80%Z, 100%Z; split; [simpl; auto | lia]|].
  destruct (60 <=? z)%Z eqn:E60;
    [exists 60%Z, 79%Z; split; [simpl; auto | lia]|].
  destruct (40 <=? z)%Z eqn:E40;
    [exists 40%Z, 59%Z; split; [simpl; auto | lia]|].
  destruct (20 <=? z)%Z eqn:E20;
    [exists 20%Z, 39%Z; split; [simpl; auto | lia]|].
  exists 0%Z, 19%Z. split; [simpl; auto 6 | lia].
Qed.

Lemma credibility_bucket_matches_label_witness :
  exists lo hi,
    In (recruiters.credibilityBucket (inject_Z 79), (lo, hi)) bucketBounds
    /\ (lo <= 79 <= hi)%Z.
Proof.
  exact (credibility_bucket_matches_label 79 ltac:(lia)).
Defined.

End RoutesArithmetic.

(** ** Grading a submission *)

Section Grading.

Import challengesRoute.

Lemma evaluateLoop_spec testCases :
  forall index passedCount results,
    let r := evaluateLoop testCases index (passedCount, results) in
    fst r = (passedCount + Z.of_nat (length testCases))%Z
    /\ List.map tr_testCase (snd r)
       = List.map tr_testCase results
         ++ List.map (fun k => (index + 1 + Z.of_nat k)%Z)
              (seq 0 (length testCases))
    /\ (Forall (fun t => tr_passed t = true) results ->
        Forall (fun t => tr_passed t = true) (snd r)).
Proof.
  induction testCases as [|tc rest IH]; intros index passedCount results; simpl.
  - repeat split; [lia | rewrite app_nil_r; reflexivity | trivial].
  - destruct (IH (index + 1)%Z (passedCount + 1)%Z
                (results ++ [mkTestResult (index + 1) true (tc_input tc)
                               (tc_expectedOutput tc) "..."]))
      as (H1 & H2 & H3).
    split; [rewrite H1; lia|]. split.
    + rewrite H2, List.map_app, <- app_assoc. simpl. f_equal. f_equal.
      * lia.
      * rewrite <- List.seq_shift, List.map_map. apply List.map_ext.
        intros k. lia.
    + intros Hall. apply H3. apply Forall_app. split; [exact Hall|].
      repeat constructor.
Qed.

Lemma evaluateTestCases_score testCases :
  testCases <> [] -> g_score (evaluateTestCases testCases) = 100%Z.
Proof.
  intros Hne. unfold evaluateTestCases.
  destruct (evaluateLoop_spec testCases 0 0 []) as (H1 & _).
  destruct (evaluateLoop testCases 0 (0%Z, [])) as [passedCount results].
  simpl in H1. simpl g_score. subst passedCount.
  assert (Hn : ~ inject_Z (Z.of_nat (length testCases)) == 0).
  { change 0 with (inject_Z 0). rewrite inject_Z_injective.
    destruct testCases; [congruence | simpl; lia]. }
  rewrite Z.add_0_l. set (n := inject_Z (Z.of_nat (length testCases))) in *.
  assert (E : n / n * 100 == 100) by (field; exact Hn).
  rewrite (Math_round_comp _ _ E). reflexivity.
Qed.

(** X17: for a non-empty list of test cases [evaluateTestCases] reports every
    test as passed and a score of 100: one result per test case, numbered
    from 1 in order, and [passedTests = totalTests]. *)
Theorem evaluateTestCases_all_pass testCases :
  testCases <> [] ->
  let grading := evaluateTestCases testCases in
  g_score grading = 100%Z
  /\ g_totalTests grading = length testCases
  /\ g_passedTests grading = Z.of_nat (length testCases)
  /\ Forall (fun t => tr_passed t = true) (g_results grading)
  /\ List.map tr_testCase (g_results grading)
     = List.map (fun k => Z.of_nat k + 1)%Z (seq 0 (length testCases)).
Proof.
  intros Hne. simpl. split; [apply evaluateTestCases_score, Hne|].
  unfold evaluateTestCases.
  destruct (evaluateLoop_spec testCases 0 0 []) as (H1 & H2 & H3).
  destruct (evaluateLoop testCases 0 (0%Z, [])) as [passedCount results].
  simpl in *. repeat split.
  - rewrite H1. lia.
  - apply H3. constructor.
  - rewrite H2. apply List.map_ext. intros k. lia.
Qed.

Lemma evaluateTestCases_all_pass_witness :
  g_score (evaluateTestCases [mkTestCase "1 2" "3"; mkTestCase "2 2" "4"]) = 100%Z.
Proof.
  refine (proj1 (evaluateTestCases_all_pass
                   [mkTestCase "1 2" "3"; mkTestCase "2 2" "4"] _)).
  discriminate.
Defined.

(** On creation the hook leaves [isPassed] at [false] whether or not the
    default score counts as modified. *)
Lemma created_submission_hook now userId challengeId :
  SubmissionModel.preSave true (mkSubmission userId (Some challengeId) 0 false false now)
  = SubmissionModel.preSave false
      (mkSubmission userId (Some challengeId) 0 false false now).
Proof. reflexivity. Qed.

Lemma gradedSubmission_not_graded now sameValueMarks userId challengeId challenge :
  0 < ch_passingScore challenge ->
  gradedSubmission now sameValueMarks userId challengeId challenge
  = mkSubmission userId (Some challengeId) 0 false false now.
Proof.
  intros Hpass. unfold gradedSubmission. simpl.
  assert (Hge : ge 0 (ch_passingScore challenge) = false).
  { destruct (ge 0 (ch_passingScore challenge)) eqn:E; [|reflexivity].
    apply ge_spec in E. lra. }
  rewrite Hge. destruct sameValueMarks; reflexivity.
Qed.

(** X18: the route reads [challenge.testCases], a path the Challenge schema
    does not declare, so it grades nothing.  A submission by a known person
    to an existing challenge with a positive passing score is answered 201
    and stored with score 0, neither passed nor verified.  The attempt
    counter of the person goes up by one, the counter of passed challenges
    and the counters of the other persons stay; no skill record or score of
    any person changes, and the verified, passed submissions of every person
    are what they were. *)
Theorem submit_never_passes now sameValueMarks db stats userId challengeId
    challenge user :
  challenges db !! challengeId = Some challenge ->
  users db !! userId = Some user ->
  0 < ch_passingScore challenge ->
  let outcome := submit now sameValueMarks db stats userId challengeId in
  fst (fst outcome) = 201%nat
  /\ submissions (snd (fst outcome))
     = submissions db ++ [mkSubmission userId (Some challengeId) 0 false false now]
  /\ users (snd (fst outcome)) = users db
  /\ statsOf (snd outcome) userId
     = mkStats (totalChallengesAttempted (statsOf stats userId) + 1)%Z
         (totalChallengesPassed (statsOf stats userId))
  /\ (forall person, person <> userId ->
        snd outcome !! person = stats !! person)
  /\ forall person,
       SubmissionModel.findVerifiedPassed (snd (fst outcome)) person
       = SubmissionModel.findVerifiedPassed db person.
Proof.
  intros Hc Hu Hpass. simpl. unfold submit. rewrite Hc. simpl. rewrite Hu.
  rewrite (gradedSubmission_not_graded _ _ _ _ _ Hpass). simpl.
  split; [reflexivity|]. split; [reflexivity|]. split; [reflexivity|]. split.
  { unfold statsOf at 1. rewrite lookup_insert_eq. reflexivity. }
  split.
  { intros person Hne. apply lookup_insert_ne. congruence. }
  intros person. unfold SubmissionModel.findVerifiedPassed. simpl.
  rewrite List.filter_app. simpl. rewrite andb_false_r. apply app_nil_r.
Qed.

Lemma submit_never_passes_witness :
  statsOf (snd (submit Scenario.today false Scenario.full
                  {[ Scenario.alice := mkStats 4 2 ]} Scenario.alice Scenario.kata))
    Scenario.alice
  = mkStats 5 2.
Proof.
  destruct (submit_never_passes Scenario.today false Scenario.full
              {[ Scenario.alice := mkStats 4 2 ]} Scenario.alice
              Scenario.kata (mkChallenge Scenario.rocq medium 70)
              (mkUser [mkUserSkill Scenario.rocq 5 3 false 0
                         (Scenario.today - 10 * Scenario.day)%Z;
                       mkUserSkill Scenario.ocaml 2 1 false 0
                         (Scenario.today - 20 * Scenario.day)%Z] 0)
              eq_refl eq_refl ltac:(reflexivity))
    as (_ & _ & _ & H & _).
  exact H.
Defined.


End Grading.

(** ** The skill routes of a person *)

Section SkillRoutes.

Import usersRoute.

Lemma isInt_bounds x lo hi :
  isInt x lo (Some hi) = true -> lo <= x <= hi.
Proof.
  unfold isInt. rewrite !andb_true_iff. intros [[_ H1] H2].
  split; apply ge_spec; assumption.
Qed.

Lemma isInt_lower x lo : isInt x lo None = true -> lo <= x.
Proof.
  unfold isInt. rewrite !andb_true_iff. intros [[_ H1] _]. apply ge_spec, H1.
Qed.

Lemma validated_range rq :
  validated rq = true ->
  1 <= rq_proficiencyLevel rq <= 10
  /\ forall years, rq_yearsOfExperience rq = Some years -> 0 <= years.
Proof.
  unfold validated. rewrite andb_true_iff. intros [Hl Hy].
  split; [apply isInt_bounds, Hl|].
  intros years E. rewrite E in Hy. apply isInt_lower, Hy.
Qed.


Lemma editFirst_ids now rq skillId skills :
  List.map us_skill (editFirst now rq skillId skills) = List.map us_skill skills.
Proof.
  induction skills as [|s l IH]; simpl; [reflexivity|].
  destruct (N.eqb (us_skill s) skillId); simpl; [reflexivity | f_equal; exact IH].
Qed.

Lemma removeFirst_ids skillId skills :
  NoDup (List.map us_skill skills) ->
  List.map us_skill (removeFirst skillId skills)
  = List.filter (fun id => negb (N.eqb id skillId)) (List.map us_skill skills).
Proof.
  induction skills as [|s l IH]; simpl; [reflexivity|].
  intros Hnd. apply NoDup_cons in Hnd. destruct Hnd as [Hnotin Hnd].
  destruct (N.eqb (us_skill s) skillId) eqn:E; simpl.
  - apply N.eqb_eq in E. subst skillId. symmetry.
    apply List.forallb_filter_id. apply List.forallb_forall.
    intros id Hin. apply negb_true_iff, N.eqb_neq. intros ->.
    apply Hnotin. apply list_elem_of_In, Hin.
  - f_equal. apply IH, Hnd.
Qed.

Lemma NoDup_filter_ids (f : N -> bool) (ids : list N) :
  NoDup ids -> NoDup (List.filter f ids).
Proof.
  induction 1 as [|x l Hx Hnd IH]; simpl; [constructor|].
  destruct (f x); [|exact IH]. constructor; [|exact IH].
  intros Hin. apply Hx. apply list_elem_of_In in Hin.
  apply List.filter_In in Hin. apply list_elem_of_In, Hin.
Qed.

Lemma noDuplicateSkills_save db userId user :
  noDuplicateSkills db -> NoDup (List.map us_skill (u_skills user)) ->
  noDuplicateSkills (UserModel.save userId user db).
Proof.
  intros Hdb Hu i u Hi. unfold UserModel.save in Hi. simpl in Hi.
  destruct (decide (userId = i)) as [->|Hne].
  - rewrite lookup_insert_eq in Hi. injection Hi as <-. exact Hu.
  - rewrite lookup_insert_ne in Hi by exact Hne. exact (Hdb _ _ Hi).
Qed.

Lemma noDuplicateSkills_recompute now db userId :
  noDuplicateSkills db -> noDuplicateSkills (updateAllSkillScores now db userId).
Proof.
  intros Hdb. unfold updateAllSkillScores.
  destruct (users db !! userId) as [user|] eqn:Hu; [|exact Hdb].
  apply noDuplicateSkills_save; [exact Hdb|].
  rewrite rescoreUser_skills, List.map_map. simpl. exact (Hdb _ _ Hu).
Qed.

Lemma findSpelled_none user skillId :
  findSpelled user skillId = None
  <-> ~ In skillId (List.map (fun s => toString (us_skill s)) (u_skills user)).
Proof.
  unfold findSpelled. induction (u_skills user) as [|s l IH].
  - simpl. split; [auto | reflexivity].
  - cbn [List.find List.map In].
    destruct (String.eqb (toString (us_skill s)) skillId) eqn:E.
    + apply String.eqb_eq in E.
      split; [discriminate | intros H; exfalso; apply H; left; exact E].
    + apply String.eqb_neq in E. rewrite IH. split.
      * intros H [H'|H']; [exact (E H') | exact (H H')].
      * intros H H'. apply H. right. exact H'.
Qed.

(** X20: [PUT /skills/:skillId], [DELETE /skills/:skillId] and a
    recomputation never give a person two records for one skill.
    [POST /skills] keeps the records unique when the string of the request is
    the spelling that [toString] gives the id of the skill found.  It compares
    that string with the stored ids, though, while it stores the id the
    string is cast to: for any other spelling of the id of a skill the person
    already has, a valid request is answered 201 and a second record for
    that skill is stored. *)
Theorem skill_routes_keep_skills_unique now skill db userId rawSkillId skillId rq :
  noDuplicateSkills db ->
  ((forall id, skill = Normal (Some id) -> toString id = rawSkillId) ->
   noDuplicateSkills (snd (addSkill now skill db userId rawSkillId rq)))
  /\ (forall id user,
        skill = Normal (Some id) -> users db !! userId = Some user ->
        validated rq = true ->
        In id (List.map us_skill (u_skills user)) ->
        ~ In rawSkillId (List.map (fun s => toString (us_skill s)) (u_skills user)) ->
        fst (addSkill now skill db userId rawSkillId rq) = 201%nat
        /\ ~ noDuplicateSkills (snd (addSkill now skill db userId rawSkillId rq)))
  /\ noDuplicateSkills (snd (updateSkill now db userId skillId rq))
  /\ noDuplicateSkills (snd (deleteSkill now db userId skillId))
  /\ noDuplicateSkills (updateAllSkillScores now db userId).
Proof.
  intros Hdb. split; [|split; [|split; [|split]]].
  - intros Hcanon. unfold addSkill. destruct (negb (validated rq)); [exact Hdb|].
    destruct skill as [[id|]|message]; [|exact Hdb|exact Hdb].
    destruct (users db !! userId) as [user|] eqn:Hu; [|exact Hdb].
    destruct (findSpelled user rawSkillId) eqn:Hs; [exact Hdb|].
    apply noDuplicateSkills_save; [exact Hdb|]. simpl.
    rewrite List.map_app. simpl. apply NoDup_app. split; [exact (Hdb _ _ Hu)|].
    split; [|apply NoDup_singleton].
    intros id' Hin Hid. apply list_elem_of_In in Hin.
    apply list_elem_of_singleton in Hid. subst id'.
    apply findSpelled_none in Hs. apply Hs.
    rewrite <- (Hcanon id eq_refl).
    apply List.in_map_iff in Hin. destruct Hin as (s & Es & Hin).
    apply List.in_map_iff. exists s. split; [rewrite Es; reflexivity | exact Hin].
  - intros id user -> Hu Hv Hin Hraw. unfold addSkill. rewrite Hv. simpl.
    rewrite Hu. apply findSpelled_none in Hraw. rewrite Hraw. simpl.
    split; [reflexivity|]. intros Hnd.
    specialize (Hnd userId _ (lookup_insert_eq _ _ _)). simpl in Hnd.
    rewrite List.map_app in Hnd. simpl in Hnd.
    apply NoDup_app in Hnd. destruct Hnd as (_ & Hdisj & _).
    apply (Hdisj id); [apply list_elem_of_In, Hin | apply list_elem_of_singleton; reflexivity].
  - unfold updateSkill. destruct (negb (validated rq)); [exact Hdb|].
    destruct (users db !! userId) as [user|] eqn:Hu; [|exact Hdb].
    destruct (UserModel.findSkill user skillId); [|exact Hdb].
    apply noDuplicateSkills_recompute, noDuplicateSkills_save; [exact Hdb|].
    simpl. rewrite editFirst_ids. exact (Hdb _ _ Hu).
  - unfold deleteSkill.
    destruct (users db !! userId) as [user|] eqn:Hu; [|exact Hdb].
    destruct (UserModel.findSkill user skillId); [|exact Hdb].
    apply noDuplicateSkills_recompute, noDuplicateSkills_save; [exact Hdb|].
    simpl. rewrite (removeFirst_ids _ _ (Hdb _ _ Hu)).
    apply NoDup_filter_ids, (Hdb _ _ Hu).
  - apply noDuplicateSkills_recompute, Hdb.
Qed.

Lemma full_noDuplicateSkills : noDuplicateSkills Scenario.full.
Proof.
  intros i u H. unfold Scenario.full in H. simpl in H.
  rewrite lookup_insert_Some in H. destruct H as [[_ <-]|[_ H]].
  - simpl. apply (bool_decide_unpack _). reflexivity.
  - rewrite lookup_singleton_Some in H. destruct H as [_ <-]. constructor.
Qed.

Lemma skill_routes_keep_skills_unique_witness :
  noDuplicateSkills
    (snd (addSkill Scenario.today (Normal (Some Scenario.kata)) Scenario.full
            Scenario.alice (toString Scenario.kata) (mkSkillRequest 7 (Some 2)))).
Proof.
  refine (proj1 (skill_routes_keep_skills_unique Scenario.today
                   (Normal (Some Scenario.kata))
                   Scenario.full Scenario.alice (toString Scenario.kata)
                   Scenario.kata (mkSkillRequest 7 (Some 2))
                   full_noDuplicateSkills) _).
  intros id E. injection E as <-. reflexivity.
Defined.

(** The id of a skill that a person has, sent in upper case: the string is
    cast to the same id, no stored id is spelled that way, and the person
    ends with two records for the skill. *)
Example upper_case_spelling_is_stored_twice :
  let sent := "00000000000000000000000A"%string in
  toString Scenario.rocq = "00000000000000000000000a"%string
  /\ castHex sent = Some Scenario.rocq
  /\ castHex (toString Scenario.rocq) = Some Scenario.rocq
  /\ let outcome :=
       addSkill Scenario.today (Normal (castHex sent)) Scenario.full Scenario.alice sent
         (mkSkillRequest 7 (Some 2)) in
     fst outcome = 201%nat
     /\ (List.map us_skill <$> (u_skills <$> users (snd outcome) !! Scenario.alice))
        = Some [Scenario.rocq; Scenario.ocaml; Scenario.rocq].
Proof. vm_compute. repeat split. Qed.

Lemma inRange_save db userId user :
  inRange db -> userInRange user -> inRange (UserModel.save userId user db).
Proof.
  intros (H1 & H2 & H3) Hu. split; [exact H1|]. split; [exact H2|].
  intros i u Hi. unfold UserModel.save in Hi. simpl in Hi.
  destruct (decide (userId = i)) as [->|Hne].
  - rewrite lookup_insert_eq in Hi. injection Hi as <-. exact Hu.
  - rewrite lookup_insert_ne in Hi by exact Hne. exact (H3 _ _ Hi).
Qed.

Lemma editFirst_inRange now rq skillId skills :
  validated rq = true ->
  Forall skillInRange skills ->
  Forall skillInRange (editFirst now rq skillId skills).
Proof.
  intros Hv. destruct (validated_range _ Hv) as [Hl Hy].
  induction 1 as [|s l Hs Hrest IH]; simpl; [constructor|].
  destruct (N.eqb (us_skill s) skillId).
  - constructor; [|exact Hrest]. split; [exact Hl|]. simpl.
    destruct (rq_yearsOfExperience rq) as [years|] eqn:E;
      [apply (Hy _ eq_refl) | apply Hs].
  - constructor; assumption.
Qed.

Lemma removeFirst_Forall (P : UserSkill -> Prop) skillId skills :
  Forall P skills -> Forall P (removeFirst skillId skills).
Proof.
  induction 1 as [|s l Hs Hl IH]; simpl; [constructor|].
  destruct (N.eqb (us_skill s) skillId); [exact Hl | constructor; assumption].
Qed.

(** X21: the skill routes and the recomputation keep the store in range.  A
    request that passes the validators of [POST /skills] or
    [PUT /skills/:skillId] stores a proficiency level between 1 and 10 and
    non-negative years of experience; a rejected request stores nothing; the
    scores that [updateAllSkillScores] writes stay in [[0,100]]. *)
Theorem skill_routes_keep_range now skill db userId rawSkillId skillId rq :
  inRange db ->
  inRange (snd (addSkill now skill db userId rawSkillId rq))
  /\ inRange (snd (updateSkill now db userId skillId rq))
  /\ inRange (snd (deleteSkill now db userId skillId))
  /\ inRange (updateAllSkillScores now db userId).
Proof.
  intros Hdb. pose proof Hdb as (_ & _ & Husers).
  split; [|split; [|split; [|apply updateAllSkillScores_inRange, Hdb]]].
  - unfold addSkill. destruct (validated rq) eqn:Hv; simpl; [|exact Hdb].
    destruct skill as [[id|]|message]; [|exact Hdb|exact Hdb].
    destruct (users db !! userId) as [user|] eqn:Hu; [|exact Hdb].
    destruct (findSpelled user rawSkillId); [exact Hdb|].
    destruct (Husers _ _ Hu) as [Hc Hs]. destruct (validated_range _ Hv) as [Hl Hy].
    apply inRange_save; [exact Hdb|]. split; [exact Hc|]. simpl.
    apply Forall_app. split; [exact Hs|]. constructor; [|constructor].
    split; [exact Hl|]. simpl.
    destruct (rq_yearsOfExperience rq) as [years|] eqn:E; [|lra].
    rewrite or_default_zero. apply (Hy _ eq_refl).
  - unfold updateSkill. destruct (validated rq) eqn:Hv; simpl; [|exact Hdb].
    destruct (users db !! userId) as [user|] eqn:Hu; [|exact Hdb].
    destruct (UserModel.findSkill user skillId); [|exact Hdb].
    destruct (Husers _ _ Hu) as [Hc Hs].
    apply updateAllSkillScores_inRange, inRange_save; [exact Hdb|].
    split; [exact Hc|]. simpl. apply editFirst_inRange; assumption.
  - unfold deleteSkill.
    destruct (users db !! userId) as [user|] eqn:Hu; [|exact Hdb].
    destruct (UserModel.findSkill user skillId); [|exact Hdb].
    destruct (Husers _ _ Hu) as [Hc Hs].
    apply updateAllSkillScores_inRange, inRange_save; [exact Hdb|].
    split; [exact Hc|]. simpl. apply removeFirst_Forall, Hs.
Qed.

Lemma skill_routes_keep_range_witness :
  inRange
    (snd (updateSkill Scenario.today Scenario.full Scenario.alice Scenario.rocq
            (mkSkillRequest 7 (Some 2)))).
Proof.
  exact (proj1 (proj2 (skill_routes_keep_range Scenario.today
                         (Normal (Some Scenario.rocq)) Scenario.full Scenario.alice
                         (toString Scenario.rocq) Scenario.rocq
                         (mkSkillRequest 7 (Some 2)) full_inRange))).
Defined.







End SkillRoutes.

(** ** The best submission *)

Section BestSubmission.

Lemma largestScore_spec l :
  forall best,
    match SubmissionModel.largestScore l best with
    | None => best = None /\ l = []
    | Some r =>
        (best = Some r \/ In r l)
        /\ (forall b, best = Some b -> sub_score b <= sub_score r)
        /\ Forall (fun s => sub_score s <= sub_score r) l
    end.
Proof.
  induction l as [|s l IH]; intros best; simpl.
  - destruct best as [b|]; [|split; reflexivity].
    split; [left; reflexivity|]. split; [|constructor].
    intros b' [= <-]. apply Qle_refl.
  - destruct best as [b|].
    + destruct (lt (sub_score b) (sub_score s)) eqn:E.
      * apply lt_spec in E. specialize (IH (Some s)).
        destruct (SubmissionModel.largestScore l (Some s)) as [r|];
          [|destruct IH; discriminate].
        destruct IH as (Hin & Hbest & Hall). specialize (Hbest s eq_refl).
        split; [|split].
        -- right. destruct Hin as [[= <-]|Hin]; [left; reflexivity | right; exact Hin].
        -- intros b' [= <-]. lra.
        -- constructor; assumption.
      * apply lt_false in E. specialize (IH (Some b)).
        destruct (SubmissionModel.largestScore l (Some b)) as [r|];
          [|destruct IH; discriminate].
        destruct IH as (Hin & Hbest & Hall). specialize (Hbest b eq_refl).
        split; [|split].
        -- destruct Hin as [Hin|Hin]; [left; exact Hin | right; right; exact Hin].
        -- intros b' [= <-]. exact Hbest.
        -- constructor; [lra | exact Hall].
    + specialize (IH (Some s)).
      destruct (SubmissionModel.largestScore l (Some s)) as [r|];
        [|destruct IH; discriminate].
      destruct IH as (Hin & Hbest & Hall). specialize (Hbest s eq_refl).
      split; [|split].
      * right. destruct Hin as [[= <-]|Hin]; [left; reflexivity | right; exact Hin].
      * discriminate.
      * constructor; assumption.
Qed.

(** X24: [getBestSubmission] returns nothing exactly when the person has no
    submission for the challenge; otherwise it returns one of the person's
    submissions for that challenge, and none of them has a larger score. *)
Theorem getBestSubmission_is_best db userId challengeId :
  (SubmissionModel.getBestSubmission db userId challengeId = None
   <-> SubmissionModel.findByUserAndChallenge db userId challengeId = [])
  /\ forall best,
       SubmissionModel.getBestSubmission db userId challengeId = Some best ->
       In best (submissions db)
       /\ sub_user best = userId
       /\ sub_challenge best = Some challengeId
       /\ forall s,
            In s (submissions db) -> sub_user s = userId ->
            sub_challenge s = Some challengeId ->
            sub_score s <= sub_score best.
Proof.
  unfold SubmissionModel.getBestSubmission.
  pose proof (largestScore_spec
                (SubmissionModel.findByUserAndChallenge db userId challengeId) None)
    as Hspec.
  destruct (SubmissionModel.largestScore _ None) as [r|].
  - destruct Hspec as ([Hin|Hin] & _ & Hall); [discriminate|].
    split.
    + split; [discriminate|]. intros E. rewrite E in Hin. destruct Hin.
    + intros best [= <-]. unfold SubmissionModel.findByUserAndChallenge in *.
      apply List.filter_In in Hin. destruct Hin as [Hin Hmatch].
      apply andb_true_iff in Hmatch. destruct Hmatch as [Hu Hc].
      apply N.eqb_eq in Hu.
      destruct (sub_challenge r) as [c|] eqn:Ec; [|discriminate].
      apply N.eqb_eq in Hc. subst c.
      repeat split; try assumption.
      intros s Hs Hsu Hsc. rewrite List.Forall_forall in Hall. apply Hall.
      apply List.filter_In. split; [exact Hs|].
      rewrite Hsu, Hsc, !N.eqb_refl. reflexivity.
  - destruct Hspec as [_ Hnil]. split; [split; [intros _; exact Hnil | reflexivity]|].
    discriminate.
Qed.

Lemma getBestSubmission_is_best_witness :
  SubmissionModel.getBestSubmission Scenario.full Scenario.alice Scenario.kata
  = Some (mkSubmission Scenario.alice (Some Scenario.kata) 90 true true Scenario.today)
  /\ In (mkSubmission Scenario.alice (Some Scenario.kata) 90 true true Scenario.today)
       (submissions Scenario.full).
Proof.
  split; [reflexivity|].
  exact (proj1 (proj2 (getBestSubmission_is_best Scenario.full Scenario.alice
                         Scenario.kata) _ eq_refl)).
Defined.

End BestSubmission.

(** ** Revoking an endorsement *)

Section Revoke.

Import endorsementsRoute.




End Revoke.
